(** * Hedge-fund replication toolkit: excess-return transform, track
      simulator and rolling-window weight estimators ([tools.py]).

    The development embeds the three numerical kernels of [tools.py] and
    proves the properties stated about them.

    Numbers.  A pandas/NumPy [float64] is modelled by [float]: a rational
    (exact, no rounding), one of the two infinities, or NaN.  The arithmetic
    follows IEEE-754 on the special values (NaN is absorbing, [inf - inf] and
    [0 * inf] are NaN, a non-zero number divided by zero is an infinity).
    Zero is unsigned: a division by zero takes the sign of the numerator.
    The statements proved on this model follow the code operation by
    operation.  A statement that depends on the rounding of the operations
    is settled on [Binary64], where the track simulator is written over
    the IEEE-754 double precision numbers of the kernel.

    Tables.  A [DataFrame] is the list of its rows, each row carrying its
    index label (a calendar day, counted in days) and its values, one per
    column; columns are positional.  A [Series] indexed by dates is a list
    of labelled values; a row of a frame (a Series indexed by the columns)
    is a list of floats. *)

From Stdlib Require Import ZArith QArith Qcanon Qcabs Lia.
From Stdlib Require Floats.
From stdpp Require Import base option numbers list sorting.

Local Open Scope Z_scope.

(** ** Floating-point values *)

Module Float.

Inductive float : Type :=
| NaN
| NInf
| PInf
| Fin (q : Qc).

#[global] Instance float_inhabited : Inhabited float := populate NaN.

#[global] Instance float_eq_dec : EqDecision float.
Proof. solve_decision. Defined.

(** Literals: [a # b] as a float, and an integer as a float. *)
Definition of_Q (q : Q) : float := Fin (Q2Qc q).
Definition of_Z (z : Z) : float := of_Q (inject_Z z).

Definition isnan (x : float) : bool :=
  match x with NaN => true | _ => false end.

Definition is_finite (x : float) : Prop :=
  match x with Fin _ => True | _ => False end.

#[global] Instance is_finite_dec (x : float) : Decision (is_finite x).
Proof. destruct x; simpl; apply _. Defined.

(** Sign of a value ([None] for NaN), and the infinity of a given sign;
    the product of the signs [Eq] (zero) and an infinity has no sign. *)
Definition sgn (x : float) : option comparison :=
  match x with
  | NaN => None
  | NInf => Some Lt
  | PInf => Some Gt
  | Fin q => Some (q ?= 0)%Qc
  end.

Definition sgn_mul (c d : comparison) : comparison :=
  match c, d with
  | Eq, _ | _, Eq => Eq
  | Lt, Lt | Gt, Gt => Gt
  | Lt, Gt | Gt, Lt => Lt
  end.

Definition inf_of (c : comparison) : float :=
  match c with Lt => NInf | Gt => PInf | Eq => NaN end.

Definition fneg (x : float) : float :=
  match x with
  | NaN => NaN
  | NInf => PInf
  | PInf => NInf
  | Fin q => Fin (- q)%Qc
  end.

Definition fabs (x : float) : float :=
  match x with
  | NaN => NaN
  | NInf | PInf => PInf
  | Fin q => Fin (match (q ?= 0)%Qc with Lt => - q | _ => q end)%Qc
  end.

Definition fadd (x y : float) : float :=
  match x, y with
  | NaN, _ | _, NaN => NaN
  | Fin a, Fin b => Fin (a + b)%Qc
  | PInf, NInf | NInf, PInf => NaN
  | PInf, _ | _, PInf => PInf
  | NInf, _ | _, NInf => NInf
  end.

Definition fsub (x y : float) : float := fadd x (fneg y).

Definition fmul (x y : float) : float :=
  match x, y with
  | Fin a, Fin b => Fin (a * b)%Qc
  | _, _ =>
      match sgn x, sgn y with
      | Some c, Some d => inf_of (sgn_mul c d)
      | _, _ => NaN
      end
  end.

Definition fdiv (x y : float) : float :=
  match x, y with
  | NaN, _ | _, NaN => NaN
  | Fin a, Fin b =>
      if decide (b = 0%Qc) then inf_of (a ?= 0)%Qc else Fin (a / b)%Qc
  | Fin _, (PInf | NInf) => Fin 0%Qc
  | (PInf | NInf), (PInf | NInf) => NaN
  | PInf, Fin b => match (b ?= 0)%Qc with Lt => NInf | _ => PInf end
  | NInf, Fin b => match (b ?= 0)%Qc with Lt => PInf | _ => NInf end
  end.

(** [np.sum]: plain left-to-right sum. *)
Definition np_sum (l : list float) : float := fold_left fadd l (Fin 0%Qc).

(** [Series.sum()] of pandas: NaN entries are skipped ([skipna=True]). *)
Definition pd_sum (l : list float) : float :=
  np_sum (filter (λ x, isnan x = false) l).

End Float.

Export Float.

Declare Scope float_scope.
Delimit Scope float_scope with F.
Bind Scope float_scope with float.
Infix "+" := fadd : float_scope.
Infix "-" := fsub : float_scope.
Infix "*" := fmul : float_scope.
Infix "/" := fdiv : float_scope.

(** ** Errors raised by the Python code *)

Inductive exn : Type :=
| IndexError
| ZeroDivisionError
| ValueError.

Inductive result (A : Type) : Type :=
| Ok (a : A)
| Raise (e : exn).

Arguments Ok {A} a.
Arguments Raise {A} e.

#[global] Instance result_ret : MRet result := λ A a, Ok a.

#[global] Instance result_bind : MBind result := λ A B k r,
  match r with
  | Ok a => k a
  | Raise e => Raise e
  end.

(** ** Tables *)

Abbreviation date := Z (only parsing).
Abbreviation Row := (list float) (only parsing).
Abbreviation DataFrame := (list (date * Row)) (only parsing).
Abbreviation Series := (list (date * float)) (only parsing).

Definition index {A} (df : list (date * A)) : list date := df.*1.
Definition values {A} (df : list (date * A)) : list A := df.*2.

(** Number of columns (read off the first row: a frame without rows is
    taken to have no columns), and well-formedness: every row has that
    width. *)
Definition ncols (df : DataFrame) : nat :=
  match df with
  | [] => 0
  | r :: _ => length r.2
  end.

Definition wf_frame (df : DataFrame) : Prop :=
  Forall (λ r, length r.2 = ncols df) df.

(** [df.iloc[i]] for [i] in range (the loops below never leave it). *)
Definition iloc (df : DataFrame) (i : nat) : Row := values df !!! i.

(** [s.loc[d]] and [df.loc[d]]: the entry labelled [d] (labels are unique
    dates; on a repeated label pandas returns all the rows that bear it),
    and the test [d in s.index]. *)
Fixpoint find_label {A} (d : date) (s : list (date * A)) : option A :=
  match s with
  | [] => None
  | (d', a) :: s' => if decide (d' = d) then Some a else find_label d s'
  end.

Definition loc {A} `{Inhabited A} (s : list (date * A)) (d : date) : A :=
  default inhabitant (find_label d s).

Definition has_label {A} (d : date) (s : list (date * A)) : bool :=
  bool_decide (d ∈ index s).

(** Arithmetic between two rows (Series aligned on the same columns) and
    between a row and a scalar. *)
Definition row_map2 (f : float → float → float) (r1 r2 : Row) : Row :=
  zip_with f r1 r2.

Definition row_scalar (f : float → float → float) (r : Row) (c : float) : Row :=
  (λ x, f x c) <$> r.

(** ** [make_ER] *)

(** [rate.reindex(dates)]: the rate at each date of [dates], NaN where the
    rate series has no entry for that date (the dates of the rate series
    are pairwise distinct: pandas does not reindex a series with repeated
    labels). *)
Definition reindex (rate : Series) (dates : list date) : Series :=
  (λ d, (d, default NaN (find_label d rate))) <$> dates.

(** [.ffill()]: a NaN entry takes the last non-NaN value before it. *)
Fixpoint ffill_from (last : float) (s : Series) : Series :=
  match s with
  | [] => []
  | (d, x) :: s' =>
      let v := if isnan x then last else x in
      (d, v) :: ffill_from v s'
  end.

Definition ffill (s : Series) : Series := ffill_from NaN s.

(** [(dates[i] - dates[i-1]).days] *)
Definition days (dates : list date) (i : nat) : Z :=
  dates !!! i - dates !!! (i - 1)%nat.

(** The accrual factor of step [i] of the loop, one per column. *)
Definition ER_factor (price : DataFrame) (rate : Series) (i : nat) : Row :=
  let dates := index price in
  row_scalar fsub
    (row_map2 fdiv (iloc price i) (iloc price (i - 1)))
    (loc rate (dates !!! (i - 1)%nat) * of_Z (days dates i) / of_Z 36000)%F.

(** Body of the loop: [price_ER.iloc[i] = price_ER.iloc[i-1] * (...)]. *)
Definition ER_step (price : DataFrame) (rate : Series)
    (price_ER : list Row) (i : nat) : list Row :=
  <[i := row_map2 fmul (price_ER !!! (i - 1)%nat) (ER_factor price rate i)]>
    price_ER.

(** The table after the iterations [1 .. k] of the loop. *)
Definition ER_run (price : DataFrame) (rate : Series) (k : nat)
    (price_ER : list Row) : list Row :=
  fold_left (ER_step price rate) (seq 1 k) price_ER.

Definition make_ER (price : DataFrame) (rate : Series) : result DataFrame :=
  let dates := index price in
  let price_ER := replicate (length dates) (replicate (ncols price) NaN) in
  (* price_ER.iloc[0] = 1. *)
  price_ER ← (if decide (length dates = 0)%nat then Raise IndexError
              else Ok (<[0%nat := replicate (ncols price) (of_Z 1)]> price_ER));
  let n := length dates in
  let rate := ffill (reindex rate dates) in
  Ok (zip dates (ER_run price rate (n - 1) price_ER)).

(** ** [make_track] *)

(** The transient state of the simulation: share holdings, cash balance and
    the array of track values filled so far. *)
Record PortfolioState : Type := {
  shares : Row;
  cash : float;
  value : list float;
}.

(** [(df_weight / df_price).iloc[0]]: the division aligns the two frames on
    the union of their (increasing) indexes, so its first row belongs to the
    earlier of the two first dates; it is the quotient of the two first rows
    when they bear the same date, and NaN otherwise. *)
Definition first_row_div (df_weight df_price : DataFrame) : result Row :=
  match df_weight, df_price with
  | [], [] => Raise IndexError
  | [], (_, p) :: _ => Ok (replicate (length p) NaN)
  | (_, w) :: _, [] => Ok (replicate (length w) NaN)
  | (dw, w) :: _, (dp, p) :: _ =>
      if decide (dw = dp) then Ok (row_map2 fdiv w p)
      else Ok (replicate (length p) NaN)
  end.

(** [(shares * price_row).sum()]: market value of the holdings. *)
Definition holdings_value (shares price_row : Row) : float :=
  pd_sum (row_map2 fmul shares price_row).

(** [tc * value[i-1] * np.abs(w - (shares * price_row) / value[i-1]).sum()] *)
Definition turnover_cost (tc v_prev : float) (w shares price_row : Row) : float :=
  (tc * v_prev *
   pd_sum (fabs <$>
     row_map2 fsub w
       (row_scalar fdiv (row_map2 fmul shares price_row) v_prev)))%F.

(** Body of the loop of [make_track]. *)
Definition track_step (df_price df_weight : DataFrame) (tc : float)
    (st : PortfolioState) (i : nat) : PortfolioState :=
  let index := index df_price in
  if has_label (index !!! (i - 1)%nat) df_weight then
    let w := loc df_weight (index !!! (i - 1)%nat) in
    let v_prev := value st !!! (i - 1)%nat in
    let cost :=
      turnover_cost tc v_prev w (shares st)
        (loc df_price (index !!! (i - 1)%nat)) in
    let p := loc df_price (index !!! i) in
    let v := (holdings_value (shares st) p - cost + cash st)%F in
    let shares' := row_map2 fdiv (row_scalar fmul w v) p in
    let cash' := (v - holdings_value shares' p)%F in
    {| shares := shares'; cash := cash'; value := <[i := v]> (value st) |}
  else
    let p := loc df_price (index !!! i) in
    let v := (holdings_value (shares st) p + cash st)%F in
    {| shares := shares st; cash := cash st; value := <[i := v]> (value st) |}.

(** The state before the loop starts. *)
Definition track_init (df_price df_weight : DataFrame) : result PortfolioState :=
  let n := length (index df_price) in
  shares ← first_row_div df_weight df_price;
  p0 ← (if decide (n = 0)%nat then Raise IndexError else Ok (iloc df_price 0));
  let cash := (of_Z 1 - holdings_value shares p0)%F in
  Ok {| shares := shares; cash := cash; value := replicate n (of_Z 1) |}.

(** The state after the iterations [1 .. k] of the loop. *)
Definition track_run (df_price df_weight : DataFrame) (tc : float)
    (k : nat) (st : PortfolioState) : PortfolioState :=
  fold_left (track_step df_price df_weight tc) (seq 1 k) st.

Definition track_state (df_price df_weight : DataFrame) (tc : float)
    (k : nat) : result PortfolioState :=
  st ← track_init df_price df_weight;
  Ok (track_run df_price df_weight tc k st).

Definition make_track (df_price df_weight : DataFrame) (tc : float)
    : result Series :=
  st ← track_state df_price df_weight tc (length (index df_price) - 1);
  Ok (zip (index df_price) (value st)).

(** ** Rolling-window estimators *)

(** Python's [l[j]] for an integer [j]: negative positions count from the
    end, anything else out of range raises. *)
Definition py_index (l : list date) (j : Z) : result date :=
  let len := Z.of_nat (length l) in
  if decide (0 ≤ j < len) then Ok (l !!! Z.to_nat j)
  else if decide (- len ≤ j < 0) then Ok (l !!! Z.to_nat (len + j))
  else Raise IndexError.

(** [a // b] on Python integers. *)
Definition floordiv (a b : Z) : result Z :=
  if decide (b = 0) then Raise ZeroDivisionError else Ok (a `div` b).

(** [range(k)] *)
Definition range (k : Z) : list nat := seq 0 (Z.to_nat k).

(** [for i in l: s = body(s, i)], stopping at the first exception. *)
Fixpoint for_each {S} (body : S → nat → result S) (l : list nat) (s : S)
    : result S :=
  match l with
  | [] => Ok s
  | i :: l' => s' ← body s i; for_each body l' s'
  end.

(** [df.loc[start:end]] on an increasing index: the rows whose label lies
    between the two bounds, both included. *)
Definition loc_slice (df : DataFrame) (start stop : date) : DataFrame :=
  filter (λ r, start ≤ r.1 ≤ stop) df.

(** [df.loc[d] = row]: overwrite the row labelled [d], or append it. *)
Fixpoint loc_set (df : DataFrame) (d : date) (row : Row) : DataFrame :=
  match df with
  | [] => [(d, row)]
  | (d', r) :: df' =>
      if decide (d' = d) then (d, row) :: df' else (d', r) :: loc_set df' d row
  end.

(** The same on a frame of [m] columns: a row of another width is refused. *)
Definition set_row (m : nat) (df : DataFrame) (d : date) (row : Row)
    : result DataFrame :=
  if decide (length row = m) then Ok (loc_set df d row) else Raise ValueError.

(** Column [j] of a block of rows. *)
Definition column (rows : list Row) (j : nat) : list float :=
  (λ r, r !!! j) <$> rows.

(** [np.dot(x, z)] of a matrix and a vector. *)
Definition dot (r z : Row) : float := np_sum (row_map2 fmul r z).
Definition np_dot (x : list Row) (z : Row) : list float := (λ r, dot r z) <$> x.

Definition square (a : float) : float := (a * a)%F.

(** [np.sum(np.square(np.dot(x, z) - y))] where [y] is the value block of a
    one-column frame: [np.dot(x, z)] has shape [(w,)] and [y] has shape
    [(w, 1)], so the difference is the [w × w] array of all
    [dot(x[j], z) - y[i]], and every entry enters the sum. *)
Definition sum_squares (x : list Row) (y : list float) (z : Row) : float :=
  np_sum (yi ← y; (λ p, square (p - yi)%F) <$> np_dot x z).

(** What [scipy.optimize.minimize] is given and what it returns. *)
Inductive constraint_type : Type := eq_constraint | ineq_constraint.

Record Constraint : Type := {
  type : constraint_type;
  fun_ : Row → float;
}.

Record Problem : Type := {
  objective : Row → float;
  x0 : Row;
  constraints : list Constraint;
  bounds : list (float * float);
}.

Record OptimizeResult : Type := {
  x : Row;
  success : bool;
}.

(** [({'type': 'eq', 'fun': lambda z: np.sum(z) - weight_sum})
     if not np.isnan(weight_sum) else ()] *)
Definition budget_constraint (weight_sum : float) : list Constraint :=
  if negb (isnan weight_sum)
  then [ {| type := eq_constraint; fun_ := λ z, (np_sum z - weight_sum)%F |} ]
  else [].

(** [.replace(0, np.nan)] and [.replace(np.nan, 0)] on one value. *)
Definition zero_to_nan (v : float) : float :=
  if decide (v = Fin 0%Qc) then NaN else v.

Definition nan_to_zero (v : float) : float :=
  if isnan v then Fin 0%Qc else v.

(** Window [i] of a rolling estimate: its first and last dates, and the
    number of windows of a target of [n] rows,
    [floor((n - sample_length) / frequency)]. *)
Definition window_end (df_y : DataFrame) (sample_length frequency : Z) (i : nat)
    : date :=
  index df_y !!! Z.to_nat (Z.of_nat i * frequency + sample_length).

Definition window_start (df_y : DataFrame) (frequency : Z) (i : nat) : date :=
  index df_y !!! Z.to_nat (Z.of_nat i * frequency).

Definition window_count (df_y : DataFrame) (sample_length frequency : Z) : nat :=
  Z.to_nat ((Z.of_nat (length df_y) - sample_length) `div` frequency).

Section Estimators.

(** The two library routines the estimators rely on: the SLSQP solver of
    SciPy and the square root behind the standard deviation of pandas. *)
Variable minimize : Problem → OptimizeResult.
Variable sqrt : float → float.

(** [Series.std()] of pandas: sample standard deviation ([ddof=1]) of the
    non-NaN entries, NaN when fewer than two are left. *)
Definition pd_std (l : list float) : float :=
  let xs := filter (λ v, isnan v = false) l in
  let c := length xs in
  if decide (c ≤ 1)%nat then NaN
  else
    let mean := (np_sum xs / of_Z (Z.of_nat c))%F in
    sqrt (np_sum ((λ v, square (v - mean)%F) <$> xs)
          / of_Z (Z.of_nat c - 1))%F.

(** [x.std(axis=0).replace(0, np.nan)] for a block of [m] columns. *)
Definition window_std (m : nat) (rows : list Row) : Row :=
  (λ j, zero_to_nan (pd_std (column rows j))) <$> seq 0 m.

(** [(x / std_x).replace(np.nan, 0).values] *)
Definition standardize (rows : list Row) (std : Row) : list Row :=
  (λ r, nan_to_zero <$> row_map2 fdiv r std) <$> rows.

(** The window of iteration [i]: its two end dates. *)
Definition window (index : list date) (sample_length frequency : Z) (i : nat)
    : result (date * date) :=
  start ← py_index index (Z.of_nat i * frequency);
  stop ← py_index index (Z.of_nat i * frequency + sample_length);
  Ok (start, stop).

(** The optimisation problem of one window of [ols_regression]. *)
Definition ols_problem (df_y df_x : DataFrame) (boundaries : float * float)
    (weight_sum : float) (start stop : date) : Problem :=
  let m := ncols df_x in
  let x := values (loc_slice df_x start stop) in
  let y := column (values (loc_slice df_y start stop)) 0 in
  {| objective := sum_squares x y;
     x0 := replicate m (Fin 0%Qc);
     constraints := budget_constraint weight_sum;
     bounds := replicate m boundaries |}.

Definition ols_regression (df_y df_x : DataFrame) (sample_length frequency : Z)
    (boundaries : float * float) (weight_sum : float) : result DataFrame :=
  let index := index df_y in
  let n := Z.of_nat (length df_x) in
  let m := ncols df_x in
  k ← floordiv (n - sample_length) frequency;
  for_each (λ df_weight i,
      '(start, stop) ← window index sample_length frequency i;
      let res := minimize (ols_problem df_y df_x boundaries weight_sum start stop) in
      set_row m df_weight stop (x res))
    (range k) [].

(** The standardisation both excess-return estimators apply to a window:
    [std_x], the standardized [x], [std_y] and the standardized [y]. *)
Record ERWindow : Type := {
  std_x : Row;
  x_std : list Row;
  std_y : Row;
  y_std : list float;
}.

Definition ER_window (df_y df_x : DataFrame) (start stop : date) : ERWindow :=
  let x := values (loc_slice df_x start stop) in
  let std_x := window_std (ncols df_x) x in
  let y := values (loc_slice df_y start stop) in
  let std_y := window_std (ncols df_y) y in
  {| std_x := std_x;
     x_std := standardize x std_x;
     std_y := std_y;
     y_std := column (standardize y std_y) 0 |}.

(** [std_y.iloc[0] * res.x / std_x]: [std_y] needs a first entry, and the
    fitted vector has to be as long as [std_x] for the quotient to exist. *)
Definition rescaled (w : ERWindow) (z : Row) : Row :=
  row_map2 fdiv (row_scalar (λ v s, s * v)%F z (std_y w !!! 0%nat)) (std_x w).

Definition rescale (w : ERWindow) (z : Row) : result Row :=
  if decide (std_y w = []) then Raise IndexError
  else if decide (length z = length (std_x w)) then Ok (rescaled w z)
  else Raise ValueError.

Definition ols_ER_problem (df_y df_x : DataFrame) (boundaries : float * float)
    (weight_sum : float) (start stop : date) : Problem :=
  let m := ncols df_x in
  let w := ER_window df_y df_x start stop in
  {| objective := sum_squares (x_std w) (y_std w);
     x0 := replicate m (Fin 0%Qc);
     constraints := budget_constraint weight_sum;
     bounds := replicate m boundaries |}.

Definition ols_regression_ER (df_y df_x : DataFrame)
    (sample_length frequency : Z) (boundaries : float * float)
    (weight_sum : float) : result DataFrame :=
  let index := index df_y in
  let n := Z.of_nat (length df_x) in
  let m := ncols df_x in
  k ← floordiv (n - sample_length) frequency;
  for_each (λ df_weight i,
      '(start, stop) ← window index sample_length frequency i;
      let res :=
        minimize (ols_ER_problem df_y df_x boundaries weight_sum start stop) in
      row ← rescale (ER_window df_y df_x start stop) (x res);
      set_row m df_weight stop row)
    (range k) [].

Definition lasso_ER_problem (df_y df_x : DataFrame) (lambda_ : float)
    (boundaries : float * float) (weight_sum : float) (start stop : date)
    : Problem :=
  let n := Z.of_nat (length df_x) in
  let m := ncols df_x in
  let w := ER_window df_y df_x start stop in
  {| objective := λ z,
       (sum_squares (x_std w) (y_std w) z
        + lambda_ * of_Z n * np_sum (fabs <$> z))%F;
     x0 := replicate m (Fin 0%Qc);
     constraints := budget_constraint weight_sum;
     bounds := replicate m boundaries |}.

Definition lasso_regression_ER (df_y df_x : DataFrame)
    (sample_length frequency : Z) (lambda_ : float)
    (boundaries : float * float) (weight_sum : float) : result DataFrame :=
  let index := index df_y in
  let n := Z.of_nat (length df_x) in
  let m := ncols df_x in
  k ← floordiv (n - sample_length) frequency;
  for_each (λ df_weight i,
      '(start, stop) ← window index sample_length frequency i;
      let res :=
        minimize
          (lasso_ER_problem df_y df_x lambda_ boundaries weight_sum start stop) in
      row ← rescale (ER_window df_y df_x start stop) (x res);
      set_row m df_weight stop row)
    (range k) [].

(** The row each estimator stores for window [i]. *)
Definition ols_row (df_y df_x : DataFrame) (sample_length frequency : Z)
    (boundaries : float * float) (weight_sum : float) (i : nat) : Row :=
  let s := window_start df_y frequency i in
  let e := window_end df_y sample_length frequency i in
  x (minimize (ols_problem df_y df_x boundaries weight_sum s e)).

Definition ols_ER_row (df_y df_x : DataFrame) (sample_length frequency : Z)
    (boundaries : float * float) (weight_sum : float) (i : nat) : Row :=
  let s := window_start df_y frequency i in
  let e := window_end df_y sample_length frequency i in
  rescaled (ER_window df_y df_x s e)
    (x (minimize (ols_ER_problem df_y df_x boundaries weight_sum s e))).

Definition lasso_ER_row (df_y df_x : DataFrame) (sample_length frequency : Z)
    (lambda_ : float) (boundaries : float * float) (weight_sum : float)
    (i : nat) : Row :=
  let s := window_start df_y frequency i in
  let e := window_end df_y sample_length frequency i in
  rescaled (ER_window df_y df_x s e)
    (x (minimize
          (lasso_ER_problem df_y df_x lambda_ boundaries weight_sum s e))).

End Estimators.

(** ** The statements under study, written out *)

(** The rate the loop of [make_ER] reads at position [j]: the entry of the
    rate series dated exactly [dates[j]] when there is one that is not NaN,
    and otherwise what was read at the previous price date (NaN before the
    first such entry). *)
Fixpoint carried_rate (rate : Series) (dates : list date) (j : nat) : float :=
  let here := default NaN (find_label (dates !!! j) rate) in
  if isnan here then
    match j with
    | O => NaN
    | S j' => carried_rate rate dates j'
    end
  else here.

(** The last known rate at date [d]: the latest entry of the (increasing)
    rate series dated [d] or earlier. *)
Definition last_known_rate (rate : Series) (d : date) : float :=
  default NaN (last (values (filter (λ r, r.1 ≤ d) rate))).

(** One step of the excess-return recurrence for a financing rate [r] and a
    day-count base [base], in one column. *)
Definition ER_recurrence (base : Z) (er_prev p p_prev r : float) (d : Z) : float :=
  (er_prev * (p / p_prev - r * of_Z d / of_Z base))%F.

(** The recurrence with the last known rate and the base 360. *)
Definition ER_360 (price : DataFrame) (rate : Series) : Prop :=
  ∀ er, make_ER price rate = Ok er →
    ∀ i c, (1 ≤ i < length price)%nat → (c < ncols price)%nat →
      iloc er i !!! c =
        ER_recurrence 360 (iloc er (i - 1) !!! c)
          (iloc price i !!! c) (iloc price (i - 1) !!! c)
          (last_known_rate rate (index price !!! (i - 1)%nat))
          (days (index price) i).

(** Cumulative product of the simple price ratios of column [c] up to row
    [t], starting from 1. *)
Definition cumulative_return (price : DataFrame) (c t : nat) : float :=
  fold_left fmul
    ((λ s, iloc price s !!! c / iloc price (s - 1) !!! c)%F <$> seq 1 t)
    (of_Z 1).

(** ** Sample data *)

(** Two instruments over three dates (days 0, 30 and 61) and a rate series
    quoted once, on day 0. *)
Definition price_ex : DataFrame :=
  [ (0, [of_Z 100; of_Z 50]);
    (30, [of_Z 110; of_Z 45]);
    (61, [of_Z 99; of_Z 54]) ].

Definition rate_ex : Series := [ (0, of_Q (25 # 1000)) ].

Definition zero_rate_ex : Series :=
  [ (0, of_Z 0); (30, of_Z 0); (61, of_Z 0) ].

(** The static buy-and-hold path of a weight schedule with the single row
    [w0]: the holdings and the cash derived on the first date are kept on
    every date. *)
Definition buy_and_hold (df_price : DataFrame) (w0 : Row) (tc : float) : Prop :=
  let shares0 := row_map2 fdiv w0 (iloc df_price 0) in
  let cash0 := (of_Z 1 - holdings_value shares0 (iloc df_price 0))%F in
  ∀ track,
    make_track df_price [(index df_price !!! 0%nat, w0)] tc = Ok track →
    ∀ t, (t < length df_price)%nat →
      values track !!! t = (holdings_value shares0 (iloc df_price t) + cash0)%F.

(** Entries that are numbers, and prices that are non-zero numbers. *)
Definition finite_row (r : Row) : Prop := Forall is_finite r.

Definition price_row (r : Row) : Prop :=
  Forall (λ p, is_finite p ∧ p ≠ Fin 0%Qc) r.

(** Two instruments whose prices double one after the other, held half and
    half from the first date on. *)
Definition price_ab : DataFrame :=
  [ (0, [of_Z 100; of_Z 100]);
    (1, [of_Z 200; of_Z 100]);
    (2, [of_Z 200; of_Z 200]) ].

Definition half_half : Row := [of_Q (1 # 2); of_Q (1 # 2)].

(** A schedule that rebalances the sample prices on days 0 and 30. *)
Definition weight_ex : DataFrame :=
  [ (0, [of_Q (6 # 10); of_Q (4 # 10)]);
    (30, [of_Q (3 # 10); of_Q (5 # 10)]) ].

(** A transaction cost of one percent. *)
Definition tc_ex : float := of_Q (1 # 100).

(** ** Statements about the estimators *)

(** The shape of the schedule a rolling estimator returns for a target of
    [n] rows: [floor((n - sample_length) / frequency)] rows, keyed by the
    window end dates [index[i * frequency + sample_length]], strictly
    increasing, one value per regressor column. *)
Definition rolling_schedule (df_y df_x : DataFrame) (sample_length frequency : Z)
    (W : DataFrame) : Prop :=
  length W = window_count df_y sample_length frequency ∧
  index W = window_end df_y sample_length frequency
              <$> seq 0 (window_count df_y sample_length frequency) ∧
  StronglySorted Z.lt (index W) ∧
  Forall (λ r, length r.2 = ncols df_x) W.

(** Failure of the solver in a window is passed on to the caller: the row
    stored for a window in which the solver reports no success is not the
    vector the solver returned. *)
Definition propagates_failure (minimize : Problem → OptimizeResult)
    (df_y df_x : DataFrame) (sample_length frequency : Z)
    (boundaries : float * float) (weight_sum : float) : Prop :=
  ∀ W i,
    ols_regression minimize df_y df_x sample_length frequency boundaries
      weight_sum = Ok W →
    (i < window_count df_y sample_length frequency)%nat →
    let res :=
      minimize (ols_problem df_y df_x boundaries weight_sum
                  (window_start df_y frequency i)
                  (window_end df_y sample_length frequency i)) in
    success res = false →
    find_label (window_end df_y sample_length frequency i) W ≠ Some (x res).

(** An optimisation problem under the budget of [weight_sum]: it carries one
    constraint, the equality [sum(z) - weight_sum = 0], exactly when
    [weight_sum] is not NaN, and no constraint exactly when it is NaN; with
    [weight_sum = 0] the constraint holds of the vectors that sum to zero. *)
Definition under_budget (weight_sum : float) (pb : Problem) : Prop :=
  (isnan weight_sum = false ↔
     ∃ c, constraints pb = [c] ∧ type c = eq_constraint ∧
       ∀ z, fun_ c z = (np_sum z - weight_sum)%F) ∧
  (isnan weight_sum = true ↔ constraints pb = []) ∧
  (weight_sum = Fin 0%Qc →
     ∃ c, constraints pb = [c] ∧
       ∀ z, fun_ c z = Fin 0%Qc ↔ np_sum z = Fin 0%Qc).

(** What the development asks of the solver: the vector it returns has the
    dimension of the start point, and it only looks at the objective on
    vectors of numbers. *)
Definition keeps_dimension (minimize : Problem → OptimizeResult) : Prop :=
  ∀ pb, length (x (minimize pb)) = length (x0 pb).

Definition reads_finite_points (minimize : Problem → OptimizeResult) : Prop :=
  ∀ pb pb',
    x0 pb = x0 pb' → finite_row (x0 pb) →
    constraints pb = constraints pb' → bounds pb = bounds pb' →
    (∀ z, finite_row z → objective pb z = objective pb' z) →
    minimize pb = minimize pb'.

(** ** Stand-ins for the library routines, used on the sample data *)

(** A solver that gives up at once: it returns the start point and reports
    that it did not converge. *)
Definition stalled_minimize (pb : Problem) : OptimizeResult :=
  {| x := x0 pb; success := false |}.

(** Strict order on floats (false as soon as one side is NaN). *)
Definition fltb (a b : float) : bool :=
  match a, b with
  | NaN, _ | _, NaN => false
  | Fin p, Fin q => match (p ?= q)%Qc with Lt => true | _ => false end
  | NInf, NInf | PInf, _ | Fin _, NInf => false
  | NInf, _ | Fin _, PInf => true
  end.

(** A crude solver: it compares the objective at the start point and at the
    start point moved by one along each axis, and returns the best. *)
Definition bump (z : Row) (j : nat) : Row := alter (λ v, v + of_Z 1)%F j z.

Definition argmin (f : Row → float) (best : Row) (l : list Row) : Row :=
  fold_left (λ b c, if fltb (f c) (f b) then c else b) l best.

Definition probe_minimize (pb : Problem) : OptimizeResult :=
  {| x := argmin (objective pb) (x0 pb) (bump (x0 pb) <$> seq 0 (length (x0 pb)));
     success := true |}.

(** A rational square root: exact at zero, otherwise three steps of
    Newton's iteration from 1. *)
Definition newton (q g : Qc) : Qc := ((g + q / g) / Q2Qc (2 # 1))%Qc.

Definition sqrt_newton (v : float) : float :=
  match v with
  | Fin q =>
      match (q ?= 0)%Qc with
      | Lt => NaN
      | Eq => Fin 0%Qc
      | Gt => Fin (newton q (newton q (newton q 1%Qc)))
      end
  | PInf => PInf
  | NaN | NInf => NaN
  end.

(** A target and two regressors over four dates; the second regressor does
    not move. *)
Definition target_ex : DataFrame :=
  [ (0, [of_Z 1]); (7, [of_Z 3]); (14, [of_Z 2]); (21, [of_Z 5]) ].

Definition regressors_ex : DataFrame :=
  [ (0, [of_Z 1; of_Z 4]);
    (7, [of_Z 2; of_Z 4]);
    (14, [of_Z 2; of_Z 4]);
    (21, [of_Z 4; of_Z 4]) ].

Definition unbounded : float * float := (NInf, PInf).
Definition unit_box : float * float := (of_Z 0, of_Z 1).

(** ** Further statements *)

(** [price[[c]]]: the one-column table of column [c]. *)
Definition select_column (c : nat) (df : DataFrame) : DataFrame :=
  (λ r, (r.1, [r.2 !!! c])) <$> df.

(** A number that is not zero. *)
Definition nonzero (v : float) : Prop := is_finite v ∧ v ≠ Fin 0%Qc.

(** A rate series quoted on days [-5] and [40] only: before the first price
    date and between two price dates, never on one. *)
Definition rate_off_grid : Series := [ (-5, of_Q (25 # 10)); (40, of_Z 3) ].

(** A schedule that starts on day 30, after the first price date. *)
Definition weight_late : DataFrame := [ (30, [of_Q (6 # 10); of_Q (4 # 10)]) ].

(** A target of two rows only. *)
Definition short_target : DataFrame := [ (0, [of_Z 1]); (7, [of_Z 3]) ].

(** A target that does not move over the first three dates. *)
Definition flat_target : DataFrame :=
  [ (0, [of_Z 2]); (7, [of_Z 2]); (14, [of_Z 2]); (21, [of_Z 5]) ].

(** [df.iloc[:m]]: the first [m] rows of a table. *)
Definition first_rows {A} (m : nat) (df : list (date * A)) : list (date * A) :=
  take m df.

(** The state of a simulation that knows the first [m] dates only: the same
    holdings and cash, a shorter array of values. *)
Definition first_values (m : nat) (st : PortfolioState) : PortfolioState :=
  {| shares := shares st; cash := cash st; value := take m (value st) |}.

(** A schedule with one more row, dated on the last date of the sample
    prices. *)
Definition weight_ex_more : DataFrame :=
  weight_ex ++ [ (61, [of_Q (9 # 10); of_Q (1 # 10)]) ].

(** ** The track simulator in double precision *)

(** [make_track] once more, over the IEEE-754 binary64 numbers of the
    kernel: every operation rounds as it does on a [float64], and [==] is
    the comparison of two such numbers.  Rows are summed from left to
    right, as NumPy does for rows of fewer than eight entries. *)
Module Binary64.

Abbreviation f64 := PrimFloat.float (only parsing).

(** The four operations and the comparison of the processor. *)
Definition add (x y : f64) : f64 := PrimFloat.add x y.
Definition sub (x y : f64) : f64 := PrimFloat.sub x y.
Definition mul (x y : f64) : f64 := PrimFloat.mul x y.
Definition div (x y : f64) : f64 := PrimFloat.div x y.
Definition eqb (x y : f64) : bool := PrimFloat.eqb x y.

Declare Scope f64_scope.
Delimit Scope f64_scope with f64.
Arguments add (x y)%_f64_scope.
Arguments sub (x y)%_f64_scope.
Arguments mul (x y)%_f64_scope.
Arguments div (x y)%_f64_scope.
Arguments eqb (x y)%_f64_scope.
Infix "+" := add : f64_scope.
Infix "-" := sub : f64_scope.
Infix "*" := mul : f64_scope.
Infix "/" := div : f64_scope.
Infix "==" := eqb (at level 70, no associativity) : f64_scope.

#[global] Instance f64_inhabited : Inhabited f64 := populate PrimFloat.nan.

(** Literals: an integer (below [2^53] in size) as a float, and the
    decimal [a / b] as the double nearest to it. *)
Definition of_Z (z : Z) : f64 :=
  if decide (z < 0) then PrimFloat.opp (PrimFloat.of_uint63 (Uint63.of_Z (- z)))
  else PrimFloat.of_uint63 (Uint63.of_Z z).


Definition isnan (x : f64) : bool := negb (x == x)%f64.

Definition np_sum (l : list f64) : f64 := fold_left add l (of_Z 0).

Definition pd_sum (l : list f64) : f64 :=
  np_sum (filter (λ x, isnan x = false) l).

Definition iloc (df : list (date * list f64)) (i : nat) : list f64 :=
  values df !!! i.

Definition row_map2 (f : f64 → f64 → f64) (r1 r2 : list f64) : list f64 :=
  zip_with f r1 r2.

Definition row_scalar (f : f64 → f64 → f64) (r : list f64) (c : f64)
    : list f64 :=
  (λ x, f x c) <$> r.

Record PortfolioState : Type := {
  shares : list f64;
  cash : f64;
  value : list f64;
}.

Definition first_row_div (df_weight df_price : list (date * list f64))
    : result (list f64) :=
  match df_weight, df_price with
  | [], [] => Raise IndexError
  | [], (_, p) :: _ => Ok (replicate (length p) PrimFloat.nan)
  | (_, w) :: _, [] => Ok (replicate (length w) PrimFloat.nan)
  | (dw, w) :: _, (dp, p) :: _ =>
      if decide (dw = dp) then Ok (row_map2 div w p)
      else Ok (replicate (length p) PrimFloat.nan)
  end.

Definition holdings_value (shares price_row : list f64) : f64 :=
  pd_sum (row_map2 mul shares price_row).

Definition turnover_cost (tc v_prev : f64) (w shares price_row : list f64)
    : f64 :=
  (tc * v_prev *
   pd_sum (PrimFloat.abs <$>
     row_map2 sub w
       (row_scalar div
          (row_map2 mul shares price_row) v_prev)))%f64.

Definition track_step (df_price df_weight : list (date * list f64)) (tc : f64)
    (st : PortfolioState) (i : nat) : PortfolioState :=
  let index := index df_price in
  if has_label (index !!! (i - 1)%nat) df_weight then
    let w := loc df_weight (index !!! (i - 1)%nat) in
    let v_prev := value st !!! (i - 1)%nat in
    let cost :=
      turnover_cost tc v_prev w (shares st)
        (loc df_price (index !!! (i - 1)%nat)) in
    let p := loc df_price (index !!! i) in
    let v := (holdings_value (shares st) p - cost + cash st)%f64 in
    let shares' := row_map2 div (row_scalar mul w v) p in
    let cash' := (v - holdings_value shares' p)%f64 in
    {| shares := shares'; cash := cash'; value := <[i := v]> (value st) |}
  else
    let p := loc df_price (index !!! i) in
    let v := (holdings_value (shares st) p + cash st)%f64 in
    {| shares := shares st; cash := cash st; value := <[i := v]> (value st) |}.

Definition track_init (df_price df_weight : list (date * list f64))
    : result PortfolioState :=
  let n := length (index df_price) in
  shares ← first_row_div df_weight df_price;
  p0 ← (if decide (n = 0)%nat then Raise IndexError else Ok (iloc df_price 0));
  let cash := (of_Z 1 - holdings_value shares p0)%f64 in
  Ok {| shares := shares; cash := cash; value := replicate n (of_Z 1) |}.

Definition track_run (df_price df_weight : list (date * list f64)) (tc : f64)
    (k : nat) (st : PortfolioState) : PortfolioState :=
  fold_left (track_step df_price df_weight tc) (seq 1 k) st.

Definition track_state (df_price df_weight : list (date * list f64))
    (tc : f64) (k : nat) : result PortfolioState :=
  st ← track_init df_price df_weight;
  Ok (track_run df_price df_weight tc k st).

Definition make_track (df_price df_weight : list (date * list f64)) (tc : f64)
    : result (list (date * f64)) :=
  st ← track_state df_price df_weight tc (length (index df_price) - 1);
  Ok (zip (index df_price) (value st)).





End Binary64.

(** * Properties *)

(** Rational arithmetic stays folded under [simpl]. *)
#[local] Arguments Qcplus : simpl never.
#[local] Arguments Qcmult : simpl never.
#[local] Arguments Qcopp : simpl never.
#[local] Arguments Qcinv : simpl never.
#[local] Arguments Qcdiv : simpl never.
#[local] Arguments Qcminus : simpl never.
#[local] Arguments Q2Qc : simpl never.
#[local] Arguments Qccompare : simpl never.

(** ** Arithmetic facts *)

Section FloatFacts.

Lemma fsub_zero (a : float) : (a - Fin 0%Qc)%F = a.
Proof.
  destruct a as [| | |q]; try reflexivity.
  unfold fsub; simpl. f_equal. ring.
Qed.

Lemma zero_accrual (d : Z) : (Fin 0%Qc * of_Z d / of_Z 36000)%F = Fin 0%Qc.
Proof.
  unfold of_Z, of_Q; simpl.
  f_equal. field. discriminate.
Qed.

End FloatFacts.

(** ** Labelled tables *)

Section Tables.
Context {A : Type} `{Inhabited A}.
Implicit Types s : list (date * A).

Lemma find_label_lookup s i d a :
  NoDup (index s) → s !! i = Some (d, a) → find_label d s = Some a.
Proof.
  revert i. induction s as [|[d' a'] s IH]; intros i Hnd Hi; [done|].
  apply NoDup_cons in Hnd as [Hd' Hnd]. simpl.
  destruct i as [|i]; simpl in Hi.
  - injection Hi as -> ->. by rewrite decide_True.
  - rewrite decide_False; [by eapply IH|].
    intros ->. apply Hd'. unfold index.
    apply list_elem_of_fmap. exists (d, a). split; [done|].
    by eapply list_elem_of_lookup_2.
Qed.

Lemma find_label_None s d : d ∉ index s → find_label d s = None.
Proof.
  induction s as [|[d' a'] s IH]; intros Hd; [done|]. simpl in *.
  apply not_elem_of_cons in Hd as [Hne Hd].
  rewrite decide_False by done. by apply IH.
Qed.

Lemma index_length s : length (index s) = length s.
Proof. apply length_fmap. Qed.

Lemma values_length s : length (values s) = length s.
Proof. apply length_fmap. Qed.

(** On a table without repeated dates, [loc] at the date of row [i] is
    row [i]. *)
Lemma loc_index s i :
  NoDup (index s) → (i < length s)%nat → loc s (index s !!! i) = values s !!! i.
Proof.
  intros Hnd Hi.
  destruct (lookup_lt_is_Some_2 s i Hi) as [[d a] Hs].
  unfold loc, index, values.
  rewrite !list_lookup_total_alt, !list_lookup_fmap, Hs. simpl.
  by erewrite find_label_lookup.
Qed.

End Tables.

Lemma wf_frame_iloc (df : DataFrame) (i : nat) :
  wf_frame df → (i < length df)%nat → length (iloc df i) = ncols df.
Proof.
  intros Hwf Hi. unfold iloc, values.
  rewrite (list_lookup_total_fmap snd df i) by done.
  by apply (proj1 (Forall_lookup_total _ _) Hwf).
Qed.

(** Entries and widths of row arithmetic. *)
Section Rows.
Variable f : float → float → float.

Lemma row_map2_length (r1 r2 : Row) :
  length (row_map2 f r1 r2) = (length r1 `min` length r2)%nat.
Proof. apply length_zip_with. Qed.

Lemma row_map2_lookup (r1 r2 : Row) (c : nat) :
  (c < length r1)%nat → (c < length r2)%nat →
  row_map2 f r1 r2 !!! c = f (r1 !!! c) (r2 !!! c).
Proof. intros. by apply lookup_total_zip_with. Qed.

Lemma row_scalar_length (r : Row) (s : float) :
  length (row_scalar f r s) = length r.
Proof. apply length_fmap. Qed.

Lemma row_scalar_lookup (r : Row) (s : float) (c : nat) :
  (c < length r)%nat → row_scalar f r s !!! c = f (r !!! c) s.
Proof. intros. unfold row_scalar. by rewrite (list_lookup_total_fmap _ r c). Qed.

End Rows.

(** ** [make_ER] *)

Section ExcessReturn.
Variables (price : DataFrame) (rate : Series).

Local Abbreviation run := (ER_run price rate).

Lemma ER_run_S k er0 : run (S k) er0 = ER_step price rate (run k er0) (S k).
Proof. unfold ER_run. by rewrite seq_S, fold_left_app. Qed.

Lemma ER_run_length k er0 : length (run k er0) = length er0.
Proof.
  induction k as [|k IH]; [done|].
  rewrite ER_run_S. unfold ER_step. by rewrite length_insert.
Qed.

(** Rows the loop has not reached yet, and row 0, are left alone. *)
Lemma ER_run_untouched k er0 i :
  (i = 0 ∨ k < i)%nat → run k er0 !!! i = er0 !!! i.
Proof.
  induction k as [|k IH]; intros Hi; [done|].
  rewrite ER_run_S. unfold ER_step.
  rewrite list_lookup_total_insert_ne by lia. apply IH. lia.
Qed.

(** Every row the loop has written obeys the recurrence. *)
Lemma ER_run_row k er0 i :
  (1 ≤ i ≤ k)%nat → (i < length er0)%nat →
  run k er0 !!! i =
    row_map2 fmul (run k er0 !!! (i - 1)%nat) (ER_factor price rate i).
Proof.
  induction k as [|k IH]; intros Hi Hlen; [lia|].
  rewrite ER_run_S. unfold ER_step.
  rewrite (list_lookup_total_insert_ne _ (S k) (i - 1)) by lia.
  destruct (decide (i = S k)) as [->|Hne].
  - rewrite list_lookup_total_insert_eq; [done|]. by rewrite ER_run_length.
  - rewrite list_lookup_total_insert_ne by lia. apply IH; lia.
Qed.

Lemma ER_factor_length i :
  wf_frame price → (1 ≤ i < length price)%nat →
  length (ER_factor price rate i) = ncols price.
Proof.
  intros Hwf Hi. unfold ER_factor.
  rewrite row_scalar_length, row_map2_length.
  rewrite !wf_frame_iloc by (done || lia). lia.
Qed.

Lemma ER_run_widths k er0 :
  wf_frame price → length er0 = length price →
  Forall (λ r, length r = ncols price) er0 →
  Forall (λ r, length r = ncols price) (run k er0).
Proof.
  intros Hwf Hlen Hw. induction k as [|k IH]; [done|].
  rewrite ER_run_S. unfold ER_step.
  destruct (decide (S k < length price)%nat) as [Hk|Hk].
  - apply Forall_insert; [done|].
    rewrite row_map2_length, ER_factor_length by (done || lia).
    pose proof (proj1 (Forall_lookup_total _ _) IH (S k - 1)%nat) as Hrow.
    rewrite ER_run_length in Hrow. rewrite Hrow; lia.
  - rewrite list_insert_ge; [done|]. rewrite ER_run_length. lia.
Qed.

End ExcessReturn.

(** What [reindex] followed by [ffill] leaves at position [j]. *)
Lemma ffill_from_values last (s : Series) j :
  (j < length s)%nat →
  values (ffill_from last s) !!! j =
    (if isnan (values s !!! j) then
       match j with
       | O => last
       | S j' => values (ffill_from last s) !!! j'
       end
     else values s !!! j).
Proof.
  revert last j. induction s as [|[d v] s IH]; intros last j Hj; [simpl in Hj; lia|].
  destruct j as [|[|j]]; simpl; try done.
  - simpl in Hj. specialize (IH (if isnan v then last else v) 0%nat).
    simpl in IH. apply IH. lia.
  - simpl in Hj. specialize (IH (if isnan v then last else v) (S j)).
    apply IH. lia.
Qed.

Lemma reindex_values (rate : Series) dates j :
  (j < length dates)%nat →
  values (reindex rate dates) !!! j = default NaN (find_label (dates !!! j) rate).
Proof.
  intros Hj. unfold values, reindex. rewrite <- list_fmap_compose.
  by rewrite (list_lookup_total_fmap _ dates j).
Qed.

Lemma ffill_reindex_carried (rate : Series) dates j :
  (j < length dates)%nat →
  values (ffill (reindex rate dates)) !!! j = carried_rate rate dates j.
Proof.
  assert (Hlen : length (reindex rate dates) = length dates)
    by (unfold reindex; apply length_fmap).
  induction j as [|j IH]; intros Hj; unfold ffill in *.
  - rewrite ffill_from_values, reindex_values by lia. done.
  - rewrite ffill_from_values, reindex_values by lia.
    simpl. rewrite IH by lia. done.
Qed.

Lemma ffill_from_index last (s : Series) : index (ffill_from last s) = index s.
Proof.
  revert last. induction s as [|[d v] s IH]; intros last; [done|].
  simpl. f_equal. apply IH.
Qed.

Lemma reindex_index (rate : Series) dates : index (reindex rate dates) = dates.
Proof.
  unfold index, reindex. rewrite <- list_fmap_compose.
  induction dates as [|d l IH]; [done|]. simpl. by f_equal.
Qed.

(** The table [make_ER] returns: same dates, a first row of ones, and every
    later entry obtained from the one above it by the accrual step with the
    rate carried along the price dates and the day-count base 36000. *)
Lemma make_ER_rows (price : DataFrame) (rate : Series) :
  price ≠ [] → wf_frame price → NoDup (index price) →
  ∃ er, make_ER price rate = Ok er ∧ index er = index price ∧
    (∀ c, (c < ncols price)%nat → iloc er 0 !!! c = of_Z 1) ∧
    ∀ i c, (1 ≤ i < length price)%nat → (c < ncols price)%nat →
      iloc er i !!! c =
        ER_recurrence 36000 (iloc er (i - 1) !!! c)
          (iloc price i !!! c) (iloc price (i - 1) !!! c)
          (carried_rate rate (index price) (i - 1))
          (days (index price) i).
Proof.
  intros Hne Hwf Hnd.
  assert (Hn : (0 < length price)%nat) by (destruct price; simpl; [done|lia]).
  unfold make_ER. rewrite index_length.
  rewrite decide_False by lia. simpl.
  set (er0 := <[0%nat:=replicate (ncols price) (of_Z 1)]>
                (replicate (length price) (replicate (ncols price) NaN))).
  set (rate' := ffill (reindex rate (index price))).
  set (rows := ER_run price rate' (length price - 1) er0).
  assert (Hlen0 : length er0 = length price)
    by (unfold er0; by rewrite length_insert, length_replicate).
  assert (Hlen : length rows = length price)
    by (unfold rows; by rewrite ER_run_length).
  assert (Hw : Forall (λ r, length r = ncols price) rows).
  { apply ER_run_widths; [done..|]. unfold er0.
    apply Forall_insert; [|by rewrite length_replicate].
    apply Forall_replicate. by rewrite length_replicate. }
  assert (Hvals : values (zip (index price) rows) = rows).
  { unfold values. apply snd_zip. rewrite index_length. lia. }
  exists (zip (index price) rows). split; [done|]. split; [|split].
  - unfold index at 1. apply fst_zip. rewrite index_length. lia.
  - intros c Hc. unfold iloc. rewrite Hvals. unfold rows.
    rewrite ER_run_untouched by lia. unfold er0.
    rewrite list_lookup_total_insert_eq by (rewrite length_replicate; lia).
    by rewrite lookup_total_replicate_2.
  - intros i c Hi Hc. unfold iloc at 1 2. rewrite Hvals.
    unfold rows at 1. rewrite ER_run_row by lia. fold rows.
    assert (Hprev : length (rows !!! (i - 1)%nat) = ncols price)
      by (apply (proj1 (Forall_lookup_total _ _) Hw); lia).
    rewrite row_map2_lookup
      by (rewrite ?ER_factor_length by (done || lia); lia).
    unfold ER_recurrence. f_equal.
    unfold ER_factor.
    rewrite row_scalar_lookup
      by (rewrite row_map2_length, !wf_frame_iloc; (done || lia)).
    rewrite row_map2_lookup by (rewrite wf_frame_iloc; (done || lia)).
    f_equal. f_equal. f_equal.
    assert (Hidx : index rate' = index price)
      by (unfold rate', ffill; by rewrite ffill_from_index, reindex_index).
    assert (Hrl : length rate' = length price)
      by (rewrite <- (index_length rate'), Hidx; apply index_length).
    rewrite <- Hidx at 1.
    rewrite loc_index by (rewrite ?Hidx; (done || lia)).
    apply ffill_reindex_carried. rewrite index_length. lia.
Qed.

(** C1 (as the code has it).  For every price table with at least one row
    (well-formed, dates pairwise distinct) [make_ER] returns a table on the
    same dates in which, for each date [t] with predecessor [t-1] and each
    column independently,
    [excess[t] = excess[t-1] * (price[t]/price[t-1] - rate[t-1] * days / 36000)],
    where [rate[t-1]] is the rate carried forward along the price dates and
    is quoted in percentage points (day-count base 360 times 100). *)
Theorem make_ER_recurrence (price : DataFrame) (rate : Series) :
  price ≠ [] → wf_frame price → NoDup (index price) →
  ∃ er, make_ER price rate = Ok er ∧ index er = index price ∧
    ∀ i c, (1 ≤ i < length price)%nat → (c < ncols price)%nat →
      iloc er i !!! c =
        (iloc er (i - 1) !!! c *
         (iloc price i !!! c / iloc price (i - 1) !!! c
          - carried_rate rate (index price) (i - 1)
            * of_Z (index price !!! i - index price !!! (i - 1)%nat)
            / of_Z 36000))%F.
Proof.
  intros Hne Hwf Hnd.
  destruct (make_ER_rows price rate Hne Hwf Hnd) as (er & Her & Hidx & _ & Hrec).
  exists er. split; [done|]. split; [done|]. apply Hrec.
Qed.

(** Closed side conditions on sample data are settled by evaluation. *)
Ltac by_evaluation := apply (bool_decide_unpack _); vm_compute; exact I.

Lemma make_ER_recurrence_witness :
  (price_ex ≠ [] ∧ wf_frame price_ex ∧ NoDup (index price_ex)) ∧
  ∃ er, make_ER price_ex rate_ex = Ok er ∧ index er = index price_ex ∧
    ∀ i c, (1 ≤ i < length price_ex)%nat → (c < ncols price_ex)%nat →
      iloc er i !!! c =
        (iloc er (i - 1) !!! c *
         (iloc price_ex i !!! c / iloc price_ex (i - 1) !!! c
          - carried_rate rate_ex (index price_ex) (i - 1)
            * of_Z (index price_ex !!! i - index price_ex !!! (i - 1)%nat)
            / of_Z 36000))%F.
Proof.
  assert (H1 : price_ex ≠ []) by discriminate.
  assert (H2 : wf_frame price_ex) by by_evaluation.
  assert (H3 : NoDup (index price_ex)) by by_evaluation.
  split; [done|].
  exact (make_ER_recurrence price_ex rate_ex H1 H2 H3).
Defined.

(** C1 (as stated) fails: with the rate 0.025 known on the first price date
    and carried forward, the second row of the sample table is not
    [1 * (110/100 - 0.025 * 30 / 360)]; the code divides by 36000. *)
Lemma make_ER_not_base_360 : ¬ ER_360 price_ex rate_ex.
Proof.
  intros H.
  specialize (H _ eq_refl 1%nat 0%nat).
  specialize (H ltac:(simpl; lia) ltac:(simpl; lia)).
  vm_compute in H. discriminate H.
Qed.

(** C9.  When the rate series is zero on every date of the price table,
    the output of [make_ER] at every date [t] and every column is the
    cumulative product of the simple price ratios [price[s]/price[s-1]],
    [s ≤ t], starting from 1. *)
Theorem make_ER_zero_rate (price : DataFrame) (rate : Series) :
  price ≠ [] → wf_frame price → NoDup (index price) →
  (∀ d, d ∈ index price → find_label d rate = Some (Fin 0%Qc)) →
  ∃ er, make_ER price rate = Ok er ∧
    ∀ t c, (t < length price)%nat → (c < ncols price)%nat →
      iloc er t !!! c = cumulative_return price c t.
Proof.
  intros Hne Hwf Hnd Hzero.
  destruct (make_ER_rows price rate Hne Hwf Hnd) as (er & Her & _ & H0 & Hrec).
  exists er. split; [done|].
  assert (Hcarried : ∀ j, (j < length price)%nat →
            carried_rate rate (index price) j = Fin 0%Qc).
  { intros j Hj.
    assert (Hin : index price !!! j ∈ index price).
    { apply list_elem_of_lookup_total_2. by rewrite index_length. }
    destruct j; simpl; by rewrite (Hzero _ Hin). }
  intros t c Ht Hc. induction t as [|t IH].
  - rewrite H0 by done. reflexivity.
  - rewrite Hrec by lia. unfold ER_recurrence.
    replace (S t - 1)%nat with t by lia.
    rewrite Hcarried by lia.
    rewrite zero_accrual, fsub_zero, IH by lia.
    unfold cumulative_return.
    rewrite seq_S, fmap_app, fold_left_app. simpl.
    by replace (t - 0)%nat with t by lia.
Qed.

Lemma make_ER_zero_rate_witness :
  (price_ex ≠ [] ∧ wf_frame price_ex ∧ NoDup (index price_ex) ∧
   ∀ d, d ∈ index price_ex → find_label d zero_rate_ex = Some (Fin 0%Qc)) ∧
  ∃ er, make_ER price_ex zero_rate_ex = Ok er ∧
    ∀ t c, (t < length price_ex)%nat → (c < ncols price_ex)%nat →
      iloc er t !!! c = cumulative_return price_ex c t.
Proof.
  assert (H1 : price_ex ≠ []) by discriminate.
  assert (H2 : wf_frame price_ex) by by_evaluation.
  assert (H3 : NoDup (index price_ex)) by by_evaluation.
  assert (H4 : ∀ d, d ∈ index price_ex →
                 find_label d zero_rate_ex = Some (Fin 0%Qc)).
  { intros d Hd. simpl in Hd.
    repeat (apply elem_of_cons in Hd as [->|Hd]; [reflexivity|]).
    by apply elem_of_nil in Hd. }
  split; [done|].
  exact (make_ER_zero_rate price_ex zero_rate_ex H1 H2 H3 H4).
Defined.

(** ** [make_track] *)

Section Track.
Variables (df_price df_weight : DataFrame) (tc : float).

Local Abbreviation step := (track_step df_price df_weight tc).
Local Abbreviation run := (track_run df_price df_weight tc).

Lemma track_run_S k st : run (S k) st = step (run k st) (S k).
Proof. unfold track_run. by rewrite seq_S, fold_left_app. Qed.

Lemma track_step_value st i :
  value (step st i) = <[i := value (step st i) !!! i]> (value st).
Proof.
  unfold track_step. destruct (has_label _ _); simpl.
  - destruct (decide (i < length (value st))%nat).
    + by rewrite list_lookup_total_insert_eq.
    + by rewrite !list_insert_ge by lia.
  - destruct (decide (i < length (value st))%nat).
    + by rewrite list_lookup_total_insert_eq.
    + by rewrite !list_insert_ge by lia.
Qed.

Lemma track_step_value_length st i :
  length (value (step st i)) = length (value st).
Proof. rewrite track_step_value. apply length_insert. Qed.

Lemma track_step_value_other st i j :
  j ≠ i → value (step st i) !!! j = value st !!! j.
Proof.
  intros Hne. rewrite track_step_value.
  by rewrite list_lookup_total_insert_ne.
Qed.

Lemma track_run_value_length k st : length (value (run k st)) = length (value st).
Proof.
  induction k as [|k IH]; [done|].
  by rewrite track_run_S, track_step_value_length.
Qed.

(** Later iterations leave the values already written alone. *)
Lemma track_run_value_stable k k' st j :
  (j ≤ k ≤ k')%nat → value (run k' st) !!! j = value (run k st) !!! j.
Proof.
  intros [Hj Hk]. induction Hk as [|k' Hk IH]; [done|].
  rewrite track_run_S, track_step_value_other by lia. apply IH.
Qed.

Lemma track_init_value st0 :
  track_init df_price df_weight = Ok st0 →
  value st0 = replicate (length df_price) (of_Z 1).
Proof.
  unfold track_init. destruct (first_row_div _ _) as [s|]; [|done]. simpl.
  destruct (decide _); [done|]. simpl. intros [= <-]. simpl.
  by rewrite index_length.
Qed.

Lemma track_state_run k st :
  track_state df_price df_weight tc k = Ok st ↔
  ∃ st0, track_init df_price df_weight = Ok st0 ∧ st = run k st0.
Proof.
  unfold track_state. destruct (track_init _ _) as [st0|e]; simpl.
  - split; [intros [= <-]; eauto|]. by intros (? & [= <-] & ->).
  - split; [done|]. by intros (? & ? & _).
Qed.

Lemma track_state_S k st :
  track_state df_price df_weight tc k = Ok st →
  track_state df_price df_weight tc (S k) = Ok (step st (S k)).
Proof.
  rewrite !track_state_run. intros (st0 & Hinit & ->).
  exists st0. split; [done|]. symmetry. apply track_run_S.
Qed.

Lemma track_state_value_length k st :
  track_state df_price df_weight tc k = Ok st →
  length (value st) = length df_price.
Proof.
  rewrite track_state_run. intros (st0 & Hinit & ->).
  rewrite track_run_value_length, (track_init_value _ Hinit).
  apply length_replicate.
Qed.

(** The track returned is the value array of the last state; its entry
    [j] is already final after iteration [j]. *)
Lemma make_track_values k st :
  track_state df_price df_weight tc k = Ok st →
  (k < length df_price)%nat →
  ∃ track, make_track df_price df_weight tc = Ok track ∧
    index track = index df_price ∧
    ∀ j, (j ≤ k)%nat → values track !!! j = value st !!! j.
Proof.
  intros Hst Hk.
  pose proof Hst as (st0 & Hinit & ->)%track_state_run.
  unfold make_track, track_state. rewrite Hinit. simpl.
  eexists. split; [done|].
  assert (Hlen : length (value (run (length (index df_price) - 1) st0))
                 = length (index df_price)).
  { rewrite track_run_value_length, (track_init_value _ Hinit).
    by rewrite length_replicate, index_length. }
  split.
  - unfold index at 1. apply fst_zip. lia.
  - intros j Hj. unfold values. rewrite snd_zip by lia.
    apply track_run_value_stable. rewrite index_length. lia.
Qed.

(** The iteration that follows a rebalancing date. *)
Lemma track_step_rebalance st t :
  NoDup (index df_price) → (1 ≤ t < length df_price)%nat →
  has_label (index df_price !!! (t - 1)%nat) df_weight = true →
  let w := loc df_weight (index df_price !!! (t - 1)%nat) in
  let v_prev := value st !!! (t - 1)%nat in
  let cost := turnover_cost tc v_prev w (shares st) (iloc df_price (t - 1)) in
  let v := (holdings_value (shares st) (iloc df_price t) - cost + cash st)%F in
  let shares' := row_map2 fdiv (row_scalar fmul w v) (iloc df_price t) in
  step st t =
    {| shares := shares';
       cash := (v - holdings_value shares' (iloc df_price t))%F;
       value := <[t := v]> (value st) |}.
Proof.
  intros Hnd Ht Hlabel. unfold track_step. rewrite Hlabel.
  rewrite !loc_index by (done || lia). done.
Qed.

(** The iteration that follows any other date. *)
Lemma track_step_hold st t :
  NoDup (index df_price) → (1 ≤ t < length df_price)%nat →
  has_label (index df_price !!! (t - 1)%nat) df_weight = false →
  step st t =
    {| shares := shares st;
       cash := cash st;
       value := <[t := (holdings_value (shares st) (iloc df_price t)
                        + cash st)%F]> (value st) |}.
Proof.
  intros Hnd Ht Hlabel. unfold track_step. rewrite Hlabel.
  rewrite !loc_index by (done || lia). done.
Qed.

End Track.

(** C2.  On every simulation date [t] whose predecessor is a rebalancing
    date, [make_track] charges
    [cost = tc * value[t-1] * sum |w[t-1] - shares * price[t-1] / value[t-1]|],
    sets [value[t] = sum (shares * price[t]) - cost + cash] with the holdings
    it had before, and then holds [w[t-1] * value[t] / price[t]] shares and
    the cash [value[t] - sum (new_shares * price[t])]. *)
Theorem make_track_rebalance (df_price df_weight : DataFrame) (tc : float)
    (t : nat) (st : PortfolioState) :
  NoDup (index df_price) → (1 ≤ t < length df_price)%nat →
  track_state df_price df_weight tc (t - 1) = Ok st →
  has_label (index df_price !!! (t - 1)%nat) df_weight = true →
  let w := loc df_weight (index df_price !!! (t - 1)%nat) in
  let v_prev := value st !!! (t - 1)%nat in
  let cost :=
    (tc * v_prev *
     pd_sum (fabs <$>
       row_map2 fsub w
         (row_scalar fdiv
            (row_map2 fmul (shares st) (iloc df_price (t - 1))) v_prev)))%F in
  let v := (pd_sum (row_map2 fmul (shares st) (iloc df_price t))
            - cost + cash st)%F in
  let shares' := row_map2 fdiv (row_scalar fmul w v) (iloc df_price t) in
  ∃ st' track,
    track_state df_price df_weight tc t = Ok st' ∧
    make_track df_price df_weight tc = Ok track ∧
    values track !!! (t - 1)%nat = v_prev ∧
    values track !!! t = v ∧
    shares st' = shares' ∧
    cash st' = (v - pd_sum (row_map2 fmul shares' (iloc df_price t)))%F.
Proof.
  intros Hnd Ht Hst Hlabel w v_prev cost v shares'.
  pose proof (track_state_S _ _ _ _ _ Hst) as Hst'.
  replace (S (t - 1)) with t in Hst' by lia.
  rewrite track_step_rebalance in Hst' by done.
  destruct (make_track_values _ _ _ _ _ Hst' (proj2 Ht))
    as (track & Htrack & _ & Hvals).
  eexists _, track. split; [exact Hst'|]. split; [done|].
  pose proof (track_state_value_length _ _ _ _ _ Hst) as Hlen.
  rewrite !Hvals by lia. simpl.
  rewrite list_lookup_total_insert_ne by lia.
  rewrite list_lookup_total_insert_eq by lia. done.
Qed.

(** ** Sums and products of numbers stay numbers *)

Section Finite.

Lemma is_finite_Fin (a : float) : is_finite a ↔ ∃ q, a = Fin q.
Proof.
  split; [|by intros [q ->]]. destruct a; try done. eauto.
Qed.

Lemma filter_notnan_finite (l : list float) :
  finite_row l → filter (λ x, isnan x = false) l = l.
Proof.
  induction 1 as [|a l Ha _ IH]; [done|].
  rewrite filter_cons, IH. destruct a; try done.
Qed.

Lemma fold_fadd_finite (l : list float) (q : Qc) :
  finite_row l → is_finite (fold_left fadd l (Fin q)).
Proof.
  intros Hl. revert q. induction Hl as [|a l Ha _ IH]; intros q; [done|].
  apply is_finite_Fin in Ha as [b ->]. simpl. apply IH.
Qed.

Lemma pd_sum_finite (l : list float) : finite_row l → is_finite (pd_sum l).
Proof.
  intros Hl. unfold pd_sum, np_sum. rewrite filter_notnan_finite by done.
  by apply fold_fadd_finite.
Qed.

Lemma pd_sum_all_nan (l : list float) :
  Forall (λ a, a = NaN) l → pd_sum l = Fin 0%Qc.
Proof.
  intros Hl. unfold pd_sum.
  replace (filter _ l) with (@nil float); [done|].
  induction Hl as [|a l -> _ IH]; [done|]. by rewrite filter_cons.
Qed.

Lemma fmul_finite_row (r1 r2 : Row) :
  finite_row r1 → finite_row r2 → finite_row (row_map2 fmul r1 r2).
Proof.
  intros H1. revert r2. induction H1 as [|a r1 Ha _ IH]; intros r2 H2; [constructor|].
  destruct H2 as [|b r2 Hb H2]; [constructor|].
  apply is_finite_Fin in Ha as [qa ->]. apply is_finite_Fin in Hb as [qb ->].
  constructor; [done|]. by apply IH.
Qed.

Lemma fmul_nan_row (k : nat) (r : Row) :
  Forall (λ a, a = NaN) (row_map2 fmul (replicate k NaN) r).
Proof.
  revert r. induction k as [|k IH]; intros [|b r]; simpl; try constructor.
  - done.
  - apply IH.
Qed.

End Finite.

Lemma has_label_find {A} (s : list (date * A)) d :
  has_label d s = true → is_Some (find_label d s).
Proof.
  unfold has_label. intros Hd%bool_decide_eq_true.
  destruct (find_label d s) eqn:E; [done|].
  induction s as [|[d' a'] s IH]; simpl in *; [by apply elem_of_nil in Hd|].
  destruct (decide (d' = d)); [done|].
  apply elem_of_cons in Hd as [->|Hd]; [done|]. by apply IH.
Qed.

(** ** The accounting identity, in double precision *)

Section Track64.
Import Binary64.
Variables (df_price df_weight : list (date * list f64)) (tc : f64).







End Track64.


(** ** A schedule with a single row *)

Lemma single_row_label (df_price : DataFrame) (w0 : Row) (j : nat) :
  NoDup (index df_price) → (j < length df_price)%nat →
  has_label (index df_price !!! j) [(index df_price !!! 0%nat, w0)]
  = bool_decide (j = 0%nat).
Proof.
  intros Hnd Hj. unfold has_label. simpl.
  apply bool_decide_ext. rewrite list_elem_of_singleton. split; [|by intros ->].
  intros Heq. eapply NoDup_lookup; [exact Hnd| |].
  - apply list_lookup_lookup_total_lt. by rewrite index_length.
  - rewrite Heq. apply list_lookup_lookup_total_lt. rewrite index_length. lia.
Qed.

Lemma fsub_finite (a b : float) : is_finite a → is_finite b → is_finite (a - b)%F.
Proof. by intros [? ->]%is_finite_Fin [? ->]%is_finite_Fin. Qed.

Lemma track_init_aligned d (p w : Row) (rest weights : DataFrame) :
  track_init ((d, p) :: rest) ((d, w) :: weights) =
    Ok {| shares := row_map2 fdiv w p;
          cash := (of_Z 1 - holdings_value (row_map2 fdiv w p) p)%F;
          value := replicate (S (length rest)) (of_Z 1) |}.
Proof.
  unfold track_init, first_row_div.
  destruct (decide (d = d)); [|done]. simpl. by rewrite index_length.
Qed.

(** C3 (as the code has it).  With a weight schedule made of one row dated
    on the first price date, the first date is itself a rebalancing date.
    The simulation starts from [shares0 = w0 / price[0]] and
    [cash0 = 1 - sum (shares0 * price[0])] with [value[0] = 1]; on the
    second date it charges
    [cost = tc * value[0] * sum |w0 - shares0 * price[0] / value[0]|] (zero
    but for rounding), sets
    [value[1] = sum (shares0 * price[1]) - cost + cash0] and resets the
    holdings to [shares1 = w0 * value[1] / price[1]] with
    [cash1 = value[1] - sum (shares1 * price[1])]; from then on these are
    kept: [value[t] = sum (shares1 * price[t]) + cash1] for every
    [t ≥ 2]. *)
Theorem make_track_single_row (df_price : DataFrame) (w0 : Row) (tc : float) :
  df_price ≠ [] → NoDup (index df_price) →
  let df_weight := [(index df_price !!! 0%nat, w0)] in
  let shares0 := row_map2 fdiv w0 (iloc df_price 0) in
  let cash0 := (of_Z 1 - holdings_value shares0 (iloc df_price 0))%F in
  let cost := turnover_cost tc (of_Z 1) w0 shares0 (iloc df_price 0) in
  let v1 := (holdings_value shares0 (iloc df_price 1) - cost + cash0)%F in
  let shares1 := row_map2 fdiv (row_scalar fmul w0 v1) (iloc df_price 1) in
  let cash1 := (v1 - holdings_value shares1 (iloc df_price 1))%F in
  ∃ track st0,
    make_track df_price df_weight tc = Ok track ∧
    track_state df_price df_weight tc 0 = Ok st0 ∧
    shares st0 = shares0 ∧ cash st0 = cash0 ∧
    values track !!! 0%nat = of_Z 1 ∧
    ∀ t, (1 ≤ t < length df_price)%nat →
      values track !!! 1%nat = v1 ∧
      (∃ st, track_state df_price df_weight tc t = Ok st ∧
         shares st = shares1 ∧ cash st = cash1) ∧
      ((2 ≤ t)%nat →
       values track !!! t
       = (holdings_value shares1 (iloc df_price t) + cash1)%F).
Proof.
  intros Hne Hnd df_weight shares0 cash0 cost v1 shares1 cash1.
  assert (Hn : (0 < length df_price)%nat) by (destruct df_price; simpl; [done|lia]).
  (* the state before the loop *)
  set (st0 := {| shares := shares0; cash := cash0;
                 value := replicate (length df_price) (of_Z 1) |}).
  assert (H0 : track_state df_price df_weight tc 0 = Ok st0).
  { destruct df_price as [|[dp p] rest]; [done|]. unfold track_state.
    change df_weight with [(dp, w0)]. by rewrite track_init_aligned. }
  destruct (make_track_values _ _ _ _ _ H0 Hn) as (track & Htrack & _ & Hvals0).
  exists track, st0. split; [done|]. split; [done|].
  split; [done|]. split; [done|]. split.
  { rewrite Hvals0 by lia. simpl. by apply lookup_total_replicate_2. }
  assert (Hloc : loc df_weight (index df_price !!! 0%nat) = w0).
  { unfold loc, df_weight. simpl. by rewrite decide_True. }
  (* the second date is a rebalancing; the later ones are not *)
  assert (Hrun : ∀ k, (k < length df_price - 1)%nat →
            ∃ st, track_state df_price df_weight tc (S k) = Ok st ∧
              shares st = shares1 ∧ cash st = cash1 ∧
              length (value st) = length df_price ∧
              value st !!! 1%nat = v1 ∧
              ((1 ≤ k)%nat →
               value st !!! S k =
                 (holdings_value shares1 (iloc df_price (S k)) + cash1)%F)).
  { induction k as [|k IH]; intros Hk.
    - pose proof (track_state_S _ _ _ _ _ H0) as H1.
      rewrite track_step_rebalance in H1
        by (done || lia || (unfold df_weight; rewrite single_row_label;
                            (done || lia))).
      change (1 - 1)%nat with 0%nat in H1.
      unfold st0 in H1. cbn [shares cash value] in H1.
      rewrite Hloc in H1.
      rewrite lookup_total_replicate_2 in H1 by lia.
      fold cost v1 shares1 cash1 in H1.
      eexists. split; [exact H1|]. simpl.
      rewrite length_insert, length_replicate.
      rewrite list_lookup_total_insert_eq by (rewrite length_replicate; lia).
      repeat split; try done. lia.
    - destruct IH as (st & Hst & Hsh & Hca & Hlen & Hval1 & _); [lia|].
      pose proof (track_state_S _ _ _ _ _ Hst) as Hst'.
      rewrite track_step_hold in Hst'.
      + eexists. split; [exact Hst'|]. simpl.
        rewrite length_insert, Hsh, Hca.
        rewrite list_lookup_total_insert_ne by lia.
        rewrite list_lookup_total_insert_eq by lia. done.
      + done.
      + lia.
      + replace (S (S k) - 1)%nat with (S k) by lia.
        unfold df_weight. rewrite single_row_label by (done || lia).
        by apply bool_decide_eq_false. }
  intros t Ht. destruct t as [|k]; [lia|].
  destruct (Hrun k ltac:(lia)) as (st & Hst & Hsh & Hca & _ & Hval1 & Hval).
  destruct (make_track_values _ _ _ _ _ Hst ltac:(lia))
    as (track' & Htrack' & _ & Hvals').
  rewrite Htrack in Htrack'. injection Htrack' as <-.
  split; [by rewrite Hvals' by lia|]. split; [by eauto|].
  intros Hk. rewrite Hvals' by lia. apply Hval. lia.
Qed.

(** ** The simulator on the sample data *)

(** Closed facts about sample rows. *)
Ltac sample_rows :=
  repeat first
    [ exact I
    | apply Forall_nil_2
    | apply Forall_cons_2
    | split
    | let E := fresh in intros E; vm_compute in E; discriminate E ].

Lemma make_track_rebalance_witness :
  ∃ st st' track,
    track_state price_ex weight_ex tc_ex 1 = Ok st ∧
    has_label (index price_ex !!! 1%nat) weight_ex = true ∧
    track_state price_ex weight_ex tc_ex 2 = Ok st' ∧
    make_track price_ex weight_ex tc_ex = Ok track ∧
    values track !!! 2%nat =
      (holdings_value (shares st) (iloc price_ex 2)
       - turnover_cost tc_ex (values track !!! 1%nat) (loc weight_ex 30)
           (shares st) (iloc price_ex 1)
       + cash st)%F ∧
    shares st' =
      row_map2 fdiv (row_scalar fmul (loc weight_ex 30) (values track !!! 2%nat))
        (iloc price_ex 2) ∧
    cash st' =
      (values track !!! 2%nat - holdings_value (shares st') (iloc price_ex 2))%F.
Proof.
  assert (Hnd : NoDup (index price_ex)) by by_evaluation.
  assert (Ht : (1 ≤ 2 < length price_ex)%nat) by (simpl; lia).
  destruct (make_track_rebalance price_ex weight_ex tc_ex 2 _ Hnd Ht
              eq_refl eq_refl)
    as (st' & track & Hst' & Htrack & Hprev & Hval & Hshares & Hcash).
  eexists _, st', track. split; [reflexivity|]. split; [reflexivity|].
  split; [exact Hst'|]. split; [exact Htrack|].
  change (2 - 1)%nat with 1%nat in *.
  split; [by rewrite Hval, Hprev|].
  split; [by rewrite Hshares, Hval|].
  by rewrite Hcash, Hshares, Hval.
Defined.



(** C3 (as stated) fails: two instruments held half and half, the first
    doubling on the second date and the other on the third.  Buy-and-hold
    ends at 2; the track ends at 9/4, the holdings having been reset on the
    second date. *)
Lemma single_row_not_buy_and_hold : ¬ buy_and_hold price_ab half_half (of_Z 0).
Proof.
  intros H.
  specialize (H _ eq_refl 2%nat ltac:(simpl; lia)).
  vm_compute in H. discriminate H.
Qed.

Lemma make_track_single_row_witness :
  ∃ track,
    make_track price_ab [(0, half_half)] tc_ex = Ok track ∧
    values track !!! 0%nat = of_Z 1 ∧
    values track !!! 1%nat = of_Q (3 # 2) ∧
    values track !!! 2%nat = of_Q (9 # 4).
Proof.
  assert (Hne : price_ab ≠ []) by discriminate.
  assert (Hnd : NoDup (index price_ab)) by by_evaluation.
  destruct (make_track_single_row price_ab half_half tc_ex Hne Hnd)
    as (track & st0 & Htrack & _ & _ & _ & H0 & Hreset).
  exists track. split; [exact Htrack|]. split; [exact H0|].
  destruct (Hreset 2%nat ltac:(simpl; lia)) as (H1 & _ & H2).
  split.
  - rewrite H1. vm_compute. reflexivity.
  - rewrite (H2 ltac:(lia)). vm_compute. reflexivity.
Defined.

(** ** Rolling windows *)

Lemma for_each_snoc {S} (body : S → nat → result S) (l : list nat) (i : nat) (s : S) :
  for_each body (l ++ [i]) s = (s' ← for_each body l s; body s' i).
Proof.
  revert s. induction l as [|j l IH]; intros s; simpl.
  - by destruct (body s i).
  - destruct (body s j) as [s'|e]; simpl; [apply IH|done].
Qed.

Lemma for_each_ext {S} (body body' : S → nat → result S) (l : list nat) (s : S) :
  (∀ s i, i ∈ l → body s i = body' s i) →
  for_each body l s = for_each body' l s.
Proof.
  revert s. induction l as [|j l IH]; intros s Hext; [done|]. simpl.
  rewrite Hext by (apply elem_of_cons; by left).
  destruct (body' s j) as [s'|e]; simpl; [|done].
  apply IH. intros s'' i Hi. apply Hext. apply elem_of_cons. by right.
Qed.

Lemma loc_set_fresh (df : DataFrame) (d : date) (row : Row) :
  d ∉ index df → loc_set df d row = df ++ [(d, row)].
Proof.
  induction df as [|[d' r] df IH]; intros Hd; [done|]. simpl in *.
  apply not_elem_of_cons in Hd as [Hne Hd].
  rewrite decide_False by done. f_equal. by apply IH.
Qed.

(** Positions in an increasing index. *)
Lemma sorted_lookup_lt (l : list Z) (i j : nat) :
  StronglySorted Z.lt l → (i < j < length l)%nat → l !!! i < l !!! j.
Proof.
  intros Hs. revert i j. induction Hs as [|a l Hs IH Ha]; intros i j Hij.
  - simpl in Hij. lia.
  - destruct j as [|j]; [lia|]. simpl in Hij.
    destruct i as [|i]; simpl.
    + apply (proj1 (Forall_lookup_total _ _) Ha). lia.
    + apply IH. lia.
Qed.

Lemma py_index_in_range (l : list date) (j : Z) :
  0 ≤ j < Z.of_nat (length l) → py_index l j = Ok (l !!! Z.to_nat j).
Proof. intros Hj. unfold py_index. by rewrite decide_True. Qed.

Section Rolling.
Variables (df_y : DataFrame) (sample_length frequency : Z).
Hypothesis Hsorted : StronglySorted Z.lt (index df_y).
Hypothesis Hsl : 0 ≤ sample_length < Z.of_nat (length df_y).
Hypothesis Hfreq : 0 < frequency.

Local Abbreviation k := (window_count df_y sample_length frequency).
Local Abbreviation stop := (window_end df_y sample_length frequency).
Local Abbreviation start := (window_start df_y frequency).

(** Every window of the loop lies inside the index. *)
Lemma window_in_range i :
  (i < k)%nat →
  0 ≤ Z.of_nat i * frequency ∧
  Z.of_nat i * frequency + sample_length < Z.of_nat (length df_y).
Proof.
  unfold window_count. intros Hi.
  set (a := Z.of_nat (length df_y) - sample_length) in *.
  assert (Ha : 0 ≤ a `div` frequency) by (apply Z.div_pos; lia).
  assert (Hq : frequency * (a `div` frequency) ≤ a)
    by (apply Z.mul_div_le; lia).
  assert (Hi' : Z.of_nat i + 1 ≤ a `div` frequency) by lia.
  split; [nia|]. unfold a in *. nia.
Qed.

Lemma window_ok i :
  (i < k)%nat →
  window (index df_y) sample_length frequency i = Ok (start i, stop i).
Proof.
  intros Hi. destruct (window_in_range i Hi) as [H0 H1].
  unfold window. rewrite !py_index_in_range by (rewrite index_length; lia).
  done.
Qed.

Lemma window_end_lt i j : (i < j < k)%nat → stop i < stop j.
Proof.
  intros Hij. unfold window_end.
  destruct (window_in_range i ltac:(lia)) as [H0 H1].
  destruct (window_in_range j ltac:(lia)) as [H0' H1'].
  apply sorted_lookup_lt; [done|]. rewrite index_length. split; [nia|lia].
Qed.

Lemma window_ends_sorted (n : nat) :
  (n ≤ k)%nat → StronglySorted Z.lt (stop <$> seq 0 n).
Proof.
  induction n as [|n IH]; intros Hn; [constructor|].
  rewrite seq_S, fmap_app. simpl.
  apply StronglySorted_app_2; [|apply IH; lia|by repeat constructor].
  intros d1 d2 (i & -> & [_ Hi]%elem_of_seq)%list_elem_of_fmap
    ->%list_elem_of_singleton.
  apply window_end_lt. lia.
Qed.

(** The loop shared by the three estimators: each window appends the row
    [rowf i] it fits, keyed by the end date of the window. *)
Lemma rolling_rows (m : nat) (body : DataFrame → nat → result DataFrame)
    (rowf : nat → Row) (n : nat) :
  (n ≤ k)%nat →
  (∀ W i, (i < k)%nat → length (rowf i) = m ∧
     body W i = Ok (loc_set W (stop i) (rowf i))) →
  for_each body (seq 0 n) [] = Ok ((λ i, (stop i, rowf i)) <$> seq 0 n).
Proof.
  intros Hn Hbody. induction n as [|n IH]; [done|].
  rewrite seq_S, for_each_snoc, IH by lia. simpl.
  destruct (Hbody ((λ i, (stop i, rowf i)) <$> seq 0 n) n ltac:(lia))
    as [_ ->].
  rewrite loc_set_fresh; [by rewrite fmap_app|].
  unfold index. rewrite <- list_fmap_compose.
  intros (i & Heq & [_ Hi]%elem_of_seq)%list_elem_of_fmap. simpl in *.
  pose proof (window_end_lt i n ltac:(lia)). lia.
Qed.

Lemma rolling_schedule_rows (df_x : DataFrame) (rowf : nat → Row) :
  length df_x = length df_y →
  (∀ i, (i < k)%nat → length (rowf i) = ncols df_x) →
  rolling_schedule df_y df_x sample_length frequency
    ((λ i, (stop i, rowf i)) <$> seq 0 k).
Proof.
  intros Hlen Hrow. unfold rolling_schedule.
  assert (Hidx : index ((λ i, (stop i, rowf i)) <$> seq 0 k) = stop <$> seq 0 k).
  { unfold index. by rewrite <- list_fmap_compose. }
  split; [by rewrite length_fmap, length_seq|].
  split; [done|]. split; [rewrite Hidx; by apply window_ends_sorted|].
  apply Forall_fmap, Forall_forall. intros i [_ Hi]%elem_of_seq. simpl.
  apply Hrow. lia.
Qed.

End Rolling.

(** ** The three estimators *)

Section Estimators.
Variables (minimize : Problem → OptimizeResult) (sqrt : float → float).
Variables (df_y df_x : DataFrame) (sample_length frequency : Z).
Variables (boundaries : float * float) (weight_sum lambda_ : float).

Hypothesis Hdim : keeps_dimension minimize.
Hypothesis Hsorted : StronglySorted Z.lt (index df_y).
Hypothesis Hcol : (0 < ncols df_y)%nat.
Hypothesis Hlen : length df_x = length df_y.
Hypothesis Hsl : 0 ≤ sample_length < Z.of_nat (length df_y).
Hypothesis Hfreq : 0 < frequency.

Local Abbreviation k := (window_count df_y sample_length frequency).
Local Abbreviation stop := (window_end df_y sample_length frequency).
Local Abbreviation start := (window_start df_y frequency).

Local Abbreviation row_ols :=
  (ols_row minimize df_y df_x sample_length frequency boundaries weight_sum).
Local Abbreviation row_ER :=
  (ols_ER_row minimize sqrt df_y df_x sample_length frequency boundaries
     weight_sum).
Local Abbreviation row_lasso :=
  (lasso_ER_row minimize sqrt df_y df_x sample_length frequency lambda_
     boundaries weight_sum).

Lemma floordiv_windows :
  floordiv (Z.of_nat (length df_x) - sample_length) frequency
  = Ok ((Z.of_nat (length df_y) - sample_length) `div` frequency).
Proof. unfold floordiv. rewrite decide_False by lia. by rewrite Hlen. Qed.

Lemma std_x_length s e :
  length (std_x (ER_window sqrt df_y df_x s e)) = ncols df_x.
Proof. simpl. unfold window_std. by rewrite length_fmap, length_seq. Qed.

Lemma rescaled_length s e z :
  length z = ncols df_x →
  length (rescaled (ER_window sqrt df_y df_x s e) z) = ncols df_x.
Proof.
  intros Hz. unfold rescaled.
  rewrite row_map2_length, row_scalar_length, std_x_length. lia.
Qed.

Lemma rescale_ok s e z :
  length z = ncols df_x →
  rescale (ER_window sqrt df_y df_x s e) z
  = Ok (rescaled (ER_window sqrt df_y df_x s e) z).
Proof.
  intros Hz. unfold rescale. rewrite decide_False.
  - by rewrite decide_True by by rewrite std_x_length.
  - intros Hnil%(f_equal length). simpl in Hnil. unfold window_std in Hnil.
    rewrite length_fmap, length_seq in Hnil. lia.
Qed.

Lemma ols_row_length i : length (row_ols i) = ncols df_x.
Proof. unfold ols_row. rewrite Hdim. simpl. apply length_replicate. Qed.

Lemma ols_ER_fit_length i :
  length (x (minimize (ols_ER_problem sqrt df_y df_x boundaries weight_sum
                         (start i) (stop i)))) = ncols df_x.
Proof. rewrite Hdim. simpl. apply length_replicate. Qed.

Lemma lasso_ER_fit_length i :
  length (x (minimize (lasso_ER_problem sqrt df_y df_x lambda_ boundaries
                         weight_sum (start i) (stop i)))) = ncols df_x.
Proof. rewrite Hdim. simpl. apply length_replicate. Qed.

Lemma ols_ER_row_length i : length (row_ER i) = ncols df_x.
Proof. unfold ols_ER_row. apply rescaled_length. apply ols_ER_fit_length. Qed.

Lemma lasso_ER_row_length i : length (row_lasso i) = ncols df_x.
Proof.
  unfold lasso_ER_row. apply rescaled_length. apply lasso_ER_fit_length.
Qed.

Lemma ols_regression_rows :
  ols_regression minimize df_y df_x sample_length frequency boundaries
    weight_sum
  = Ok ((λ i, (stop i, row_ols i)) <$> seq 0 k).
Proof.
  unfold ols_regression. rewrite floordiv_windows. simpl.
  apply (rolling_rows df_y sample_length frequency Hsorted Hsl Hfreq
           (ncols df_x)); [done|].
  intros W i Hi. split; [apply ols_row_length|].
  rewrite window_ok by done. simpl.
  unfold set_row. by rewrite decide_True by apply ols_row_length.
Qed.

Lemma ols_regression_ER_rows :
  ols_regression_ER minimize sqrt df_y df_x sample_length frequency
    boundaries weight_sum
  = Ok ((λ i, (stop i, row_ER i)) <$> seq 0 k).
Proof.
  unfold ols_regression_ER. rewrite floordiv_windows. simpl.
  apply (rolling_rows df_y sample_length frequency Hsorted Hsl Hfreq
           (ncols df_x)); [done|].
  intros W i Hi.
  split; [apply ols_ER_row_length|].
  rewrite window_ok by done. simpl.
  rewrite rescale_ok by apply ols_ER_fit_length. simpl.
  unfold set_row. fold (row_ER i).
  by rewrite decide_True by apply ols_ER_row_length.
Qed.

Lemma lasso_regression_ER_rows :
  lasso_regression_ER minimize sqrt df_y df_x sample_length frequency
    lambda_ boundaries weight_sum
  = Ok ((λ i, (stop i, row_lasso i)) <$> seq 0 k).
Proof.
  unfold lasso_regression_ER. rewrite floordiv_windows. simpl.
  apply (rolling_rows df_y sample_length frequency Hsorted Hsl Hfreq
           (ncols df_x)); [done|].
  intros W i Hi.
  split; [apply lasso_ER_row_length|].
  rewrite window_ok by done. simpl.
  rewrite rescale_ok by apply lasso_ER_fit_length. simpl.
  unfold set_row. fold (row_lasso i).
  by rewrite decide_True by apply lasso_ER_row_length.
Qed.

End Estimators.

(** C5.  For a one-column target of [n] rows with increasing dates, a
    regressor table of as many rows, [0 ≤ sample_length < n] and a positive
    [frequency], each estimator returns a schedule of exactly
    [floor((n - sample_length) / frequency)] rows, keyed by the strictly
    increasing window end dates [index[i * frequency + sample_length]],
    [i = 0, 1, ...], with one value per regressor column. *)
Theorem estimators_schedule_shape
    (minimize : Problem → OptimizeResult) (sqrt : float → float)
    (df_y df_x : DataFrame) (sample_length frequency : Z)
    (boundaries : float * float) (weight_sum lambda_ : float) :
  keeps_dimension minimize →
  StronglySorted Z.lt (index df_y) →
  (0 < ncols df_y)%nat →
  length df_x = length df_y →
  0 ≤ sample_length < Z.of_nat (length df_y) →
  0 < frequency →
  ∃ W1 W2 W3,
    ols_regression minimize df_y df_x sample_length frequency boundaries
      weight_sum = Ok W1 ∧
    ols_regression_ER minimize sqrt df_y df_x sample_length frequency
      boundaries weight_sum = Ok W2 ∧
    lasso_regression_ER minimize sqrt df_y df_x sample_length frequency
      lambda_ boundaries weight_sum = Ok W3 ∧
    rolling_schedule df_y df_x sample_length frequency W1 ∧
    rolling_schedule df_y df_x sample_length frequency W2 ∧
    rolling_schedule df_y df_x sample_length frequency W3.
Proof.
  intros Hdim Hsorted Hcol Hlen Hsl Hfreq.
  eexists _, _, _.
  split; [by apply ols_regression_rows|].
  split; [by apply ols_regression_ER_rows|].
  split; [by apply lasso_regression_ER_rows|].
  split; [|split]; apply rolling_schedule_rows; try done; intros i Hi.
  - by apply ols_row_length.
  - by apply ols_ER_row_length.
  - by apply lasso_ER_row_length.
Qed.

Lemma rows_lookup (stop : nat → date) (rowf : nat → Row) (k i : nat) :
  (i < k)%nat →
  ((λ i, (stop i, rowf i)) <$> seq 0 k) !! i = Some (stop i, rowf i).
Proof. intros Hi. by rewrite list_lookup_fmap, lookup_seq_lt. Qed.

(** C4 (as the code has it).  Under the conditions of C5, every window is
    attempted and returned, and the row stored for a window is the vector
    the solver returned for it (rescaled to the original units in the two
    standardized estimators), whatever the solver says about its
    convergence: the estimators never read the [success] flag. *)
Theorem estimators_store_solver_vector
    (minimize : Problem → OptimizeResult) (sqrt : float → float)
    (df_y df_x : DataFrame) (sample_length frequency : Z)
    (boundaries : float * float) (weight_sum lambda_ : float) :
  keeps_dimension minimize →
  StronglySorted Z.lt (index df_y) →
  (0 < ncols df_y)%nat →
  length df_x = length df_y →
  0 ≤ sample_length < Z.of_nat (length df_y) →
  0 < frequency →
  ∃ W1 W2 W3,
    ols_regression minimize df_y df_x sample_length frequency boundaries
      weight_sum = Ok W1 ∧
    ols_regression_ER minimize sqrt df_y df_x sample_length frequency
      boundaries weight_sum = Ok W2 ∧
    lasso_regression_ER minimize sqrt df_y df_x sample_length frequency
      lambda_ boundaries weight_sum = Ok W3 ∧
    ∀ i, (i < window_count df_y sample_length frequency)%nat →
      let s := window_start df_y frequency i in
      let e := window_end df_y sample_length frequency i in
      let w := ER_window sqrt df_y df_x s e in
      W1 !! i =
        Some (e, x (minimize (ols_problem df_y df_x boundaries weight_sum s e))) ∧
      W2 !! i =
        Some (e, rescaled w
                   (x (minimize (ols_ER_problem sqrt df_y df_x boundaries
                                   weight_sum s e)))) ∧
      W3 !! i =
        Some (e, rescaled w
                   (x (minimize (lasso_ER_problem sqrt df_y df_x lambda_
                                   boundaries weight_sum s e)))).
Proof.
  intros Hdim Hsorted Hcol Hlen Hsl Hfreq.
  eexists _, _, _.
  split; [by apply ols_regression_rows|].
  split; [by apply ols_regression_ER_rows|].
  split; [by apply lasso_regression_ER_rows|].
  intros i Hi s e w. by rewrite !rows_lookup.
Qed.

(** C4 (as stated) fails: with two weights bounded by 0 and 1 that have to
    sum to 5 no window has a solution; the solver gives up in every window,
    and the start vector it hands back is stored as the row of each
    window. *)
Lemma stalled_solver_row_is_stored :
  ¬ propagates_failure stalled_minimize target_ex regressors_ex 2 1
      unit_box (of_Z 5).
Proof.
  intros H.
  specialize (H _ 0%nat eq_refl ltac:(vm_compute; lia) eq_refl).
  apply H. vm_compute. reflexivity.
Qed.

(** ** What a window holds *)

Lemma filter_between_none (l : DataFrame) (s e : Z) :
  Forall (λ r, e < r.1) l → filter (λ r, s ≤ r.1 ≤ e) l = [].
Proof.
  induction 1 as [|r l Hr _ IH]; [done|].
  rewrite filter_cons_False by lia. done.
Qed.

Lemma sorted_index_cons (r : Z * Row) (l : DataFrame) :
  StronglySorted Z.lt (index (r :: l)) →
  StronglySorted Z.lt (index l) ∧ Forall (λ x, r.1 < x.1) l.
Proof.
  intros Hs. change (index (r :: l)) with (r.1 :: index l) in Hs.
  apply StronglySorted_inv in Hs as [Hs Hr]. split; [done|].
  apply (proj1 (Forall_fmap fst (Z.lt r.1) l)) in Hr.
  eapply Forall_impl; [exact Hr|]. intros x Hx. exact Hx.
Qed.

Lemma sorted_head_lt (r : Z * Row) (l : DataFrame) (n : nat) :
  Forall (λ x, r.1 < x.1) l → (n < length l)%nat → r.1 < index l !!! n.
Proof.
  intros Hr Hn. unfold index.
  rewrite (list_lookup_total_fmap fst l n) by done.
  by apply (proj1 (Forall_lookup_total _ _) Hr).
Qed.

(** On an increasing index, the rows from a lower bound up to the date of
    position [n] are the first [n + 1] rows. *)
Lemma filter_between_prefix (l : DataFrame) (s : Z) (n : nat) :
  StronglySorted Z.lt (index l) → Forall (λ r, s ≤ r.1) l →
  (n < length l)%nat →
  filter (λ r, s ≤ r.1 ≤ index l !!! n) l = take (S n) l.
Proof.
  revert l. induction n as [|n IH]; intros [|r l] Hs Hlow Hn;
    try (simpl in Hn; lia).
  - apply sorted_index_cons in Hs as [_ Hr]. apply Forall_cons in Hlow as [Hr0 _].
    change (index (r :: l) !!! 0%nat) with r.1.
    rewrite filter_cons_True by lia.
    change (take 1 (r :: l)) with [r]. f_equal.
    by apply filter_between_none.
  - apply sorted_index_cons in Hs as [Hs Hr].
    apply Forall_cons in Hlow as [Hr0 Hlow]. simpl in Hn.
    assert (Hlt : r.1 < index l !!! n) by (by apply sorted_head_lt; [|lia]).
    change (index (r :: l) !!! S n) with (index l !!! n).
    rewrite filter_cons_True by lia.
    change (take (S (S n)) (r :: l)) with (r :: take (S n) l).
    f_equal. apply IH; [done..|lia].
Qed.

(** [df.loc[index[a] : index[a + n]]] is the block of the [n + 1] rows at
    the positions [a], ..., [a + n]. *)
Lemma loc_slice_block (df : DataFrame) (a n : nat) :
  StronglySorted Z.lt (index df) → (a + n < length df)%nat →
  loc_slice df (index df !!! a) (index df !!! (a + n)%nat)
  = take (S n) (drop a df).
Proof.
  unfold loc_slice. revert df. induction a as [|a IH]; intros df Hs Hlen.
  - change (0 + n)%nat with n. change (drop 0 df) with df.
    apply filter_between_prefix; [done| |lia].
    destruct df as [|r l]; [constructor|].
    pose proof Hs as [_ Hr]%sorted_index_cons.
    change (index (r :: l) !!! 0%nat) with r.1.
    constructor; [lia|]. eapply Forall_impl; [exact Hr|]. intros ?. simpl. lia.
  - destruct df as [|r l]; [simpl in Hlen; lia|].
    apply sorted_index_cons in Hs as [Hs Hr]. simpl in Hlen.
    change (index (r :: l) !!! S a) with (index l !!! a).
    change (index (r :: l) !!! (S a + n)%nat) with (index l !!! (a + n)%nat).
    assert (Hlt : r.1 < index l !!! a) by (by apply sorted_head_lt; [|lia]).
    rewrite filter_cons_False by lia.
    change (drop (S a) (r :: l)) with (drop a l). apply IH; [done|lia].
Qed.

(** ** The zero-variance column *)

Lemma fdiv_nan (a : float) : (a / NaN)%F = NaN.
Proof. by destruct a. Qed.

Lemma window_std_lookup (sqrt : float → float) (m : nat) (rows : list Row) (j : nat) :
  (j < m)%nat →
  window_std sqrt m rows !!! j = zero_to_nan (pd_std sqrt (column rows j)).
Proof.
  intros Hj. unfold window_std.
  rewrite (list_lookup_total_fmap _ (seq 0 m) j) by by rewrite length_seq.
  by rewrite lookup_total_seq_lt.
Qed.

Lemma standardize_nan_column (rows : list Row) (std : Row) (j : nat) :
  Forall (λ r, j < length r)%nat rows → (j < length std)%nat →
  std !!! j = NaN →
  Forall (λ r, r !!! j = Fin 0%Qc) (standardize rows std).
Proof.
  intros Hrows Hj Hnan. unfold standardize. apply Forall_fmap.
  eapply Forall_impl; [exact Hrows|]. intros r Hr. simpl in *.
  rewrite (list_lookup_total_fmap nan_to_zero (row_map2 fdiv r std) j)
    by (rewrite row_map2_length; lia).
  by rewrite row_map2_lookup, Hnan, fdiv_nan by done.
Qed.

Lemma loc_slice_widths (df : DataFrame) (s e : date) :
  wf_frame df → Forall (λ r, length r = ncols df) (values (loc_slice df s e)).
Proof.
  intros Hwf. unfold values. apply Forall_fmap, Forall_forall.
  intros r [_ Hr]%list_elem_of_filter. simpl.
  by apply (proj1 (Forall_forall _ _) Hwf).
Qed.

Lemma standardize_widths (m : nat) (rows : list Row) (std : Row) :
  Forall (λ r, length r = m) rows → length std = m →
  Forall (λ r, length r = m) (standardize rows std).
Proof.
  intros Hrows Hstd. unfold standardize. apply Forall_fmap.
  eapply Forall_impl; [exact Hrows|]. intros r Hr. simpl in *.
  rewrite length_fmap, row_map2_length. lia.
Qed.

(** C7.  In the two standardized estimators, for a target and a regressor
    table that share one increasing index (rows of equal width), a window
    length and a frequency as in C5: when the standard deviation of
    regressor column [j] over window [i] is zero, it is replaced by NaN;
    the standardized block of that window keeps its [sample_length + 1]
    rows of full width, with zero in column [j] of every row; no exception
    is raised, and both estimators return a schedule whose row [i] is the
    (rescaled) answer of the solver to the problem built on that block. *)
Theorem zero_variance_column_neutralized
    (minimize : Problem → OptimizeResult) (sqrt : float → float)
    (df_y df_x : DataFrame) (sample_length frequency : Z)
    (boundaries : float * float) (weight_sum lambda_ : float) (i j : nat) :
  keeps_dimension minimize →
  StronglySorted Z.lt (index df_y) →
  (0 < ncols df_y)%nat →
  index df_x = index df_y →
  0 ≤ sample_length < Z.of_nat (length df_y) →
  0 < frequency →
  wf_frame df_x →
  (i < window_count df_y sample_length frequency)%nat →
  (j < ncols df_x)%nat →
  let s := window_start df_y frequency i in
  let e := window_end df_y sample_length frequency i in
  let w := ER_window sqrt df_y df_x s e in
  pd_std sqrt (column (values (loc_slice df_x s e)) j) = Fin 0%Qc →
  std_x w !!! j = NaN ∧
  length (x_std w) = S (Z.to_nat sample_length) ∧
  Forall (λ r, length r = ncols df_x ∧ r !!! j = Fin 0%Qc) (x_std w) ∧
  ∃ W2 W3,
    ols_regression_ER minimize sqrt df_y df_x sample_length frequency
      boundaries weight_sum = Ok W2 ∧
    W2 !! i =
      Some (e, rescaled w
                 (x (minimize (ols_ER_problem sqrt df_y df_x boundaries
                                 weight_sum s e)))) ∧
    objective (ols_ER_problem sqrt df_y df_x boundaries weight_sum s e)
      = sum_squares (x_std w) (y_std w) ∧
    lasso_regression_ER minimize sqrt df_y df_x sample_length frequency
      lambda_ boundaries weight_sum = Ok W3 ∧
    W3 !! i =
      Some (e, rescaled w
                 (x (minimize (lasso_ER_problem sqrt df_y df_x lambda_
                                 boundaries weight_sum s e)))) ∧
    ∀ z, objective (lasso_ER_problem sqrt df_y df_x lambda_ boundaries
                      weight_sum s e) z
         = (sum_squares (x_std w) (y_std w) z
            + lambda_ * of_Z (Z.of_nat (length df_x))
              * np_sum (fabs <$> z))%F.
Proof.
  intros Hdim Hsorted Hcol Hidx Hsl Hfreq Hwf Hi Hj s e w Hstd.
  assert (Hlen : length df_x = length df_y)
    by (by rewrite <- (index_length df_x), Hidx, index_length).
  assert (Hnan : std_x w !!! j = NaN).
  { unfold w. simpl. rewrite window_std_lookup by done.
    rewrite Hstd. unfold zero_to_nan. by rewrite decide_True. }
  assert (Hstdlen : length (std_x w) = ncols df_x).
  { unfold w. simpl. unfold window_std. by rewrite length_fmap, length_seq. }
  destruct (window_in_range df_y sample_length frequency Hsl Hfreq i Hi)
    as [H0 H1].
  assert (Hblock : length (loc_slice df_x s e) = S (Z.to_nat sample_length)).
  { set (a := Z.to_nat (Z.of_nat i * frequency)).
    assert (He : e = index df_x !!! (a + Z.to_nat sample_length)%nat).
    { unfold e, window_end, a. rewrite Hidx. f_equal. lia. }
    assert (Hs : s = index df_x !!! a) by (unfold s, window_start; by rewrite Hidx).
    rewrite He, Hs.
    rewrite loc_slice_block; [|by rewrite Hidx|unfold a; lia].
    rewrite length_take, length_drop. unfold a. lia. }
  split; [done|]. split; [|split].
  - unfold w. simpl. unfold standardize, values.
    by rewrite !length_fmap.
  - apply Forall_and. split.
    + unfold w. simpl. apply standardize_widths; [by apply loc_slice_widths|].
      exact Hstdlen.
    + unfold w in *. simpl in *. apply standardize_nan_column; [| |done].
      * eapply Forall_impl; [by apply loc_slice_widths|].
        intros r Hr. simpl in Hr. lia.
      * unfold window_std. by rewrite length_fmap, length_seq.
  - eexists _, _.
    split; [by apply ols_regression_ER_rows|].
    split; [by apply rows_lookup|]. split; [done|].
    split; [by apply lasso_regression_ER_rows|].
    split; [by apply rows_lookup|]. done.
Qed.

(** ** The penalty at [lambda_ = 0] *)

Lemma np_sum_finite (l : list float) : finite_row l → is_finite (np_sum l).
Proof. apply fold_fadd_finite. Qed.

Lemma fabs_finite_row (z : Row) : finite_row z → finite_row (fabs <$> z).
Proof.
  intros Hz. apply Forall_fmap. eapply Forall_impl; [exact Hz|].
  by intros ? [q ->]%is_finite_Fin.
Qed.

Lemma zero_penalty (a : float) (n : Z) (z : Row) :
  finite_row z → (a + Fin 0%Qc * of_Z n * np_sum (fabs <$> z))%F = a.
Proof.
  intros Hz.
  destruct (proj1 (is_finite_Fin _) (np_sum_finite _ (fabs_finite_row _ Hz)))
    as [q ->].
  unfold of_Z, of_Q. simpl.
  replace (0 * Q2Qc (inject_Z n) * q)%Qc with 0%Qc by ring.
  destruct a as [| | |p]; try done. simpl. f_equal. ring.
Qed.

(** C8.  With a solver that looks at the objective on vectors of numbers
    only, [lasso_regression_ER] called with [lambda_ = 0] returns what
    [ols_regression_ER] returns on the same arguments: the same rows under
    the same end dates (or the same exception). *)
Theorem lasso_zero_is_ols_ER
    (minimize : Problem → OptimizeResult) (sqrt : float → float)
    (df_y df_x : DataFrame) (sample_length frequency : Z)
    (boundaries : float * float) (weight_sum : float) :
  reads_finite_points minimize →
  lasso_regression_ER minimize sqrt df_y df_x sample_length frequency
    (Fin 0%Qc) boundaries weight_sum
  = ols_regression_ER minimize sqrt df_y df_x sample_length frequency
      boundaries weight_sum.
Proof.
  intros Hext. unfold lasso_regression_ER, ols_regression_ER.
  destruct (floordiv _ _) as [k|err]; [|done]. simpl.
  apply for_each_ext. intros W i _.
  destruct (window _ _ _ _) as [[s e]|err]; [|done]. simpl.
  rewrite (Hext (lasso_ER_problem sqrt df_y df_x (Fin 0%Qc) boundaries
                   weight_sum s e)
                (ols_ER_problem sqrt df_y df_x boundaries weight_sum s e));
    try done.
  - simpl. apply Forall_replicate. done.
  - intros z Hz. simpl. by apply zero_penalty.
Qed.

(** ** The budget constraint *)

Lemma budget_constraint_under (weight_sum : float) (pb : Problem) :
  constraints pb = budget_constraint weight_sum → under_budget weight_sum pb.
Proof.
  intros Hpb. unfold under_budget. rewrite Hpb. unfold budget_constraint.
  split; [|split].
  - destruct (isnan weight_sum); simpl.
    + split; [done|]. by intros (c & [=] & _).
    + split; [|done]. intros _. by eexists.
  - by destruct (isnan weight_sum).
  - intros ->. simpl. eexists. split; [reflexivity|].
    intros z. simpl. by rewrite fsub_zero.
Qed.

(** C6.  Under the conditions of C5, each estimator stores for every window
    the answer of the solver (rescaled in the two standardized estimators)
    to a problem that carries the equality constraint
    [sum(z) - weight_sum = 0], and nothing else, exactly when [weight_sum]
    is not NaN, and no constraint exactly when it is NaN; with
    [weight_sum = 0] the constraint is there and holds of the vectors that
    sum to zero. *)
Theorem budget_constraint_iff_not_nan
    (minimize : Problem → OptimizeResult) (sqrt : float → float)
    (df_y df_x : DataFrame) (sample_length frequency : Z)
    (boundaries : float * float) (weight_sum lambda_ : float) :
  keeps_dimension minimize →
  StronglySorted Z.lt (index df_y) →
  (0 < ncols df_y)%nat →
  length df_x = length df_y →
  0 ≤ sample_length < Z.of_nat (length df_y) →
  0 < frequency →
  ∃ W1 W2 W3,
    ols_regression minimize df_y df_x sample_length frequency boundaries
      weight_sum = Ok W1 ∧
    ols_regression_ER minimize sqrt df_y df_x sample_length frequency
      boundaries weight_sum = Ok W2 ∧
    lasso_regression_ER minimize sqrt df_y df_x sample_length frequency
      lambda_ boundaries weight_sum = Ok W3 ∧
    ∀ i, (i < window_count df_y sample_length frequency)%nat →
      let s := window_start df_y frequency i in
      let e := window_end df_y sample_length frequency i in
      let w := ER_window sqrt df_y df_x s e in
      let pb1 := ols_problem df_y df_x boundaries weight_sum s e in
      let pb2 := ols_ER_problem sqrt df_y df_x boundaries weight_sum s e in
      let pb3 :=
        lasso_ER_problem sqrt df_y df_x lambda_ boundaries weight_sum s e in
      W1 !! i = Some (e, x (minimize pb1)) ∧
      W2 !! i = Some (e, rescaled w (x (minimize pb2))) ∧
      W3 !! i = Some (e, rescaled w (x (minimize pb3))) ∧
      under_budget weight_sum pb1 ∧
      under_budget weight_sum pb2 ∧
      under_budget weight_sum pb3.
Proof.
  intros Hdim Hsorted Hcol Hlen Hsl Hfreq.
  eexists _, _, _.
  split; [by apply ols_regression_rows|].
  split; [by apply ols_regression_ER_rows|].
  split; [by apply lasso_regression_ER_rows|].
  intros i Hi s e w pb1 pb2 pb3. rewrite !rows_lookup by done.
  split; [done|]. split; [done|]. split; [done|].
  split; [|split]; by apply budget_constraint_under.
Qed.

(** ** The stand-in solvers *)

Lemma stalled_keeps_dimension : keeps_dimension stalled_minimize.
Proof. by intros pb. Qed.

Lemma argmin_elem (f : Row → float) (best : Row) (l : list Row) :
  argmin f best l ∈ best :: l.
Proof.
  unfold argmin. revert best. induction l as [|c l IH]; intros best; simpl.
  - apply elem_of_cons. by left.
  - specialize (IH (if fltb (f c) (f best) then c else best)).
    apply elem_of_cons in IH as [->|IH].
    + destruct (fltb _ _); apply elem_of_cons; [right|by left].
      apply elem_of_cons. by left.
    + apply elem_of_cons. right. apply elem_of_cons. by right.
Qed.

Lemma argmin_ext (f g : Row → float) (best : Row) (l : list Row) :
  f best = g best → Forall (λ c, f c = g c) l →
  argmin f best l = argmin g best l.
Proof.
  unfold argmin. intros Hb Hl. revert best Hb.
  induction Hl as [|c l Hc _ IH]; intros best Hb; [done|]. simpl.
  rewrite Hc, Hb. apply IH. by destruct (fltb _ _).
Qed.

Lemma bump_length (z : Row) (j : nat) : length (bump z j) = length z.
Proof. apply length_alter. Qed.

Lemma bump_finite (z : Row) (j : nat) : finite_row z → finite_row (bump z j).
Proof.
  intros Hz. revert j. induction Hz as [|a z Ha Hz IH]; intros [|j]; simpl.
  - constructor.
  - constructor.
  - constructor; [|done]. by apply is_finite_Fin in Ha as [q ->].
  - constructor; [done|]. apply IH.
Qed.

Lemma probe_keeps_dimension : keeps_dimension probe_minimize.
Proof.
  intros pb. simpl.
  pose proof (argmin_elem (objective pb) (x0 pb)
                (bump (x0 pb) <$> seq 0 (length (x0 pb)))) as Hin.
  apply elem_of_cons in Hin as [->|Hin]; [done|].
  apply list_elem_of_fmap in Hin as (j & -> & _). apply bump_length.
Qed.

Lemma probe_reads_finite_points : reads_finite_points probe_minimize.
Proof.
  intros pb pb' Hx0 Hfin _ _ Hobj. unfold probe_minimize. f_equal.
  rewrite <- Hx0. apply argmin_ext; [by apply Hobj|].
  apply Forall_fmap, Forall_forall. intros j _. simpl.
  by apply Hobj, bump_finite.
Qed.

(** ** The estimators on the sample data *)

Lemma sample_sorted : StronglySorted Z.lt (index target_ex).
Proof. repeat constructor; simpl; lia. Qed.

Lemma estimators_schedule_shape_witness :
  ∃ W1 W2 W3,
    ols_regression probe_minimize target_ex regressors_ex 2 1 unbounded NaN
      = Ok W1 ∧
    ols_regression_ER probe_minimize sqrt_newton target_ex regressors_ex 2 1
      unbounded NaN = Ok W2 ∧
    lasso_regression_ER probe_minimize sqrt_newton target_ex regressors_ex 2 1
      (of_Z 1) unbounded NaN = Ok W3 ∧
    rolling_schedule target_ex regressors_ex 2 1 W1 ∧
    rolling_schedule target_ex regressors_ex 2 1 W2 ∧
    rolling_schedule target_ex regressors_ex 2 1 W3.
Proof.
  apply estimators_schedule_shape.
  - exact probe_keeps_dimension.
  - exact sample_sorted.
  - simpl. lia.
  - reflexivity.
  - simpl. lia.
  - lia.
Defined.

Lemma estimators_store_solver_vector_witness :
  ∃ W1,
    ols_regression stalled_minimize target_ex regressors_ex 2 1 unit_box
      (of_Z 5) = Ok W1 ∧
    W1 !! 1%nat = Some (21, [of_Z 0; of_Z 0]) ∧
    success (stalled_minimize
               (ols_problem target_ex regressors_ex unit_box (of_Z 5) 7 21))
      = false.
Proof.
  destruct (estimators_store_solver_vector stalled_minimize sqrt_newton
              target_ex regressors_ex 2 1 unit_box (of_Z 5) (of_Z 1))
    as (W1 & W2 & W3 & H1 & _ & _ & Hrows).
  - exact stalled_keeps_dimension.
  - exact sample_sorted.
  - simpl. lia.
  - reflexivity.
  - simpl. lia.
  - lia.
  - exists W1. split; [exact H1|]. split; [|reflexivity].
    destruct (Hrows 1%nat ltac:(vm_compute; lia)) as [-> _]. reflexivity.
Defined.

Lemma zero_variance_column_neutralized_witness :
  let w := ER_window sqrt_newton target_ex regressors_ex 0 14 in
  pd_std sqrt_newton (column (values (loc_slice regressors_ex 0 14)) 1)
    = Fin 0%Qc ∧
  std_x w !!! 1%nat = NaN ∧
  length (x_std w) = 3%nat ∧
  Forall (λ r, length r = 2%nat ∧ r !!! 1%nat = Fin 0%Qc) (x_std w) ∧
  ∃ W2 W3,
    ols_regression_ER probe_minimize sqrt_newton target_ex regressors_ex 2 1
      unbounded NaN = Ok W2 ∧
    W2 !! 0%nat =
      Some (14, rescaled w
                  (x (probe_minimize
                        (ols_ER_problem sqrt_newton target_ex regressors_ex
                           unbounded NaN 0 14)))) ∧
    objective (ols_ER_problem sqrt_newton target_ex regressors_ex unbounded
                 NaN 0 14)
      = sum_squares (x_std w) (y_std w) ∧
    lasso_regression_ER probe_minimize sqrt_newton target_ex regressors_ex 2 1
      (of_Z 1) unbounded NaN = Ok W3 ∧
    W3 !! 0%nat =
      Some (14, rescaled w
                  (x (probe_minimize
                        (lasso_ER_problem sqrt_newton target_ex regressors_ex
                           (of_Z 1) unbounded NaN 0 14)))) ∧
    ∀ z, objective (lasso_ER_problem sqrt_newton target_ex regressors_ex
                      (of_Z 1) unbounded NaN 0 14) z
         = (sum_squares (x_std w) (y_std w) z
            + of_Z 1 * of_Z (Z.of_nat (length regressors_ex))
              * np_sum (fabs <$> z))%F.
Proof.
  intros w.
  assert (Hstd : pd_std sqrt_newton
                   (column (values (loc_slice regressors_ex 0 14)) 1)
                 = Fin 0%Qc) by (vm_compute; reflexivity).
  split; [exact Hstd|].
  apply (zero_variance_column_neutralized probe_minimize sqrt_newton
           target_ex regressors_ex 2 1 unbounded NaN (of_Z 1) 0 1).
  - exact probe_keeps_dimension.
  - exact sample_sorted.
  - simpl. lia.
  - reflexivity.
  - simpl. lia.
  - lia.
  - by_evaluation.
  - vm_compute. lia.
  - simpl. lia.
  - exact Hstd.
Defined.

Lemma budget_constraint_iff_not_nan_witness :
  ∃ W1 W2 W3,
    ols_regression probe_minimize target_ex regressors_ex 2 1 unbounded
      (of_Z 0) = Ok W1 ∧
    ols_regression_ER probe_minimize sqrt_newton target_ex regressors_ex 2 1
      unbounded (of_Z 0) = Ok W2 ∧
    lasso_regression_ER probe_minimize sqrt_newton target_ex regressors_ex 2 1
      (of_Z 1) unbounded (of_Z 0) = Ok W3 ∧
    ∀ i, (i < window_count target_ex 2 1)%nat →
      let s := window_start target_ex 1 i in
      let e := window_end target_ex 2 1 i in
      let w := ER_window sqrt_newton target_ex regressors_ex s e in
      let pb1 := ols_problem target_ex regressors_ex unbounded (of_Z 0) s e in
      let pb2 :=
        ols_ER_problem sqrt_newton target_ex regressors_ex unbounded (of_Z 0)
          s e in
      let pb3 :=
        lasso_ER_problem sqrt_newton target_ex regressors_ex (of_Z 1)
          unbounded (of_Z 0) s e in
      W1 !! i = Some (e, x (probe_minimize pb1)) ∧
      W2 !! i = Some (e, rescaled w (x (probe_minimize pb2))) ∧
      W3 !! i = Some (e, rescaled w (x (probe_minimize pb3))) ∧
      under_budget (of_Z 0) pb1 ∧
      under_budget (of_Z 0) pb2 ∧
      under_budget (of_Z 0) pb3.
Proof.
  apply (budget_constraint_iff_not_nan probe_minimize sqrt_newton target_ex
           regressors_ex 2 1 unbounded (of_Z 0) (of_Z 1)).
  - exact probe_keeps_dimension.
  - exact sample_sorted.
  - simpl. lia.
  - reflexivity.
  - simpl. lia.
  - lia.
Defined.

Lemma lasso_zero_is_ols_ER_witness :
  lasso_regression_ER probe_minimize sqrt_newton target_ex regressors_ex 2 1
    (Fin 0%Qc) unbounded (of_Z 1)
  = ols_regression_ER probe_minimize sqrt_newton target_ex regressors_ex 2 1
      unbounded (of_Z 1).
Proof.
  apply lasso_zero_is_ols_ER. exact probe_reads_finite_points.
Defined.

(** * Further properties of the code *)

(** ** [make_ER]: shape *)

Lemma fold_left_ext_in {A B} (f g : A → B → A) (l : list B) (a : A) :
  (∀ a b, b ∈ l → f a b = g a b) → fold_left f l a = fold_left g l a.
Proof.
  revert a. induction l as [|b l IH]; intros a Hext; [done|]. simpl.
  rewrite Hext by (apply elem_of_cons; by left).
  apply IH. intros a' b' Hb'. apply Hext. apply elem_of_cons. by right.
Qed.

(** What [make_ER] returns on a table that has rows. *)
Lemma make_ER_unfold (price : DataFrame) (rate : Series) :
  price ≠ [] →
  make_ER price rate =
    Ok (zip (index price)
          (ER_run price (ffill (reindex rate (index price)))
             (length price - 1)
             (<[0%nat := replicate (ncols price) (of_Z 1)]>
                (replicate (length price) (replicate (ncols price) NaN))))).
Proof.
  intros Hne. unfold make_ER. rewrite index_length.
  rewrite decide_False by (destruct price; simpl; [done|lia]). done.
Qed.

Lemma make_ER_frame (price : DataFrame) (rate : Series) :
  price ≠ [] → wf_frame price →
  ∃ er, make_ER price rate = Ok er ∧
    index er = index price ∧
    wf_frame er ∧ ncols er = ncols price ∧
    iloc er 0 = replicate (ncols price) (of_Z 1).
Proof.
  intros Hne Hwf. rewrite make_ER_unfold by done.
  assert (Hn : (0 < length price)%nat) by (destruct price; simpl; [done|lia]).
  set (er0 := <[0%nat:=replicate (ncols price) (of_Z 1)]>
                (replicate (length price) (replicate (ncols price) NaN))).
  set (rate' := ffill (reindex rate (index price))).
  set (rows := ER_run price rate' (length price - 1) er0).
  assert (Hlen0 : length er0 = length price)
    by (unfold er0; by rewrite length_insert, length_replicate).
  assert (Hlen : length rows = length price)
    by (unfold rows; by rewrite ER_run_length).
  assert (Hw : Forall (λ r, length r = ncols price) rows).
  { apply ER_run_widths; [done..|]. unfold er0.
    apply Forall_insert; [|by rewrite length_replicate].
    apply Forall_replicate. by rewrite length_replicate. }
  assert (Hvals : values (zip (index price) rows) = rows).
  { unfold values. apply snd_zip. rewrite index_length. lia. }
  assert (H0 : rows !!! 0%nat = replicate (ncols price) (of_Z 1)).
  { unfold rows. rewrite ER_run_untouched by lia. unfold er0.
    by rewrite list_lookup_total_insert_eq by (rewrite length_replicate; lia). }
  assert (Hnc : ncols (zip (index price) rows) = ncols price).
  { destruct price as [|[d p] price]; [done|].
    destruct rows as [|r rows]; [simpl in Hlen; lia|]. simpl.
    by apply Forall_cons in Hw as [? _]. }
  eexists. split; [done|]. split; [|split; [|split]].
  - unfold index at 1. apply fst_zip. rewrite index_length. lia.
  - unfold wf_frame. rewrite Hnc.
    apply Forall_forall. intros [d r] Hr.
    apply (proj1 (Forall_forall _ _) Hw). simpl.
    apply (list_elem_of_fmap_2 snd) in Hr. simpl in Hr.
    change (r ∈ values (zip (index price) rows)) in Hr. by rewrite Hvals in Hr.
  - done.
  - unfold iloc. by rewrite Hvals.
Qed.

(** X2.  On a well-formed table with at least one row the output of
    [make_ER] has the dates of the input, in the same order, as many columns
    in every row, and a first row of ones. *)
Theorem make_ER_shape (price : DataFrame) (rate : Series) :
  price ≠ [] → wf_frame price →
  ∃ er, make_ER price rate = Ok er ∧
    index er = index price ∧
    wf_frame er ∧ ncols er = ncols price ∧
    iloc er 0 = replicate (ncols price) (of_Z 1).
Proof. apply make_ER_frame. Qed.

Lemma make_ER_shape_witness :
  ∃ er, make_ER price_ex rate_ex = Ok er ∧
    index er = index price_ex ∧
    wf_frame er ∧ ncols er = ncols price_ex ∧
    iloc er 0 = replicate (ncols price_ex) (of_Z 1).
Proof.
  apply make_ER_shape; [discriminate|by_evaluation].
Defined.

(** ** [make_ER]: a rate that is missing *)

Lemma fmul_nan_l (a : float) : (NaN * a)%F = NaN.
Proof. by destruct a. Qed.

Lemma fmul_nan_r (a : float) : (a * NaN)%F = NaN.
Proof. by destruct a. Qed.

Lemma fsub_nan_r (a : float) : (a - NaN)%F = NaN.
Proof. by destruct a. Qed.

Lemma fdiv_nan_l (a : float) : (NaN / a)%F = NaN.
Proof. by destruct a. Qed.

(** X3.  When the rate series has no entry dated on the first price date
    (it may well start earlier), every entry of every row after the first is
    NaN: the rate is looked up on the price dates only, and a missing rate
    spoils the row it enters and all the rows below. *)
Theorem make_ER_no_rate_on_first_date (price : DataFrame) (rate : Series) :
  price ≠ [] → wf_frame price → NoDup (index price) →
  index price !!! 0%nat ∉ index rate →
  ∃ er, make_ER price rate = Ok er ∧
    ∀ t c, (1 ≤ t < length price)%nat → (c < ncols price)%nat →
      iloc er t !!! c = NaN.
Proof.
  intros Hne Hwf Hnd Hmiss.
  destruct (make_ER_rows price rate Hne Hwf Hnd) as (er & Her & _ & _ & Hrec).
  exists er. split; [done|].
  assert (H0 : carried_rate rate (index price) 0 = NaN).
  { simpl. by rewrite find_label_None. }
  intros t c [Ht1 Ht] Hc. induction t as [|t IH]; [lia|].
  rewrite Hrec by lia. unfold ER_recurrence.
  replace (S t - 1)%nat with t by lia.
  destruct t as [|t].
  - by rewrite H0, fmul_nan_l, fdiv_nan_l, fsub_nan_r, fmul_nan_r.
  - by rewrite IH, fmul_nan_l by lia.
Qed.

Lemma make_ER_no_rate_on_first_date_witness :
  ∃ er, make_ER price_ex rate_off_grid = Ok er ∧
    ∀ t c, (1 ≤ t < length price_ex)%nat → (c < ncols price_ex)%nat →
      iloc er t !!! c = NaN.
Proof.
  apply make_ER_no_rate_on_first_date.
  - discriminate.
  - by_evaluation.
  - by_evaluation.
  - by_evaluation.
Defined.

(** ** [make_ER]: columns *)

Lemma select_column_index c (df : DataFrame) : index (select_column c df) = index df.
Proof. unfold index, select_column. by rewrite <- list_fmap_compose. Qed.

Lemma select_column_length c (df : DataFrame) :
  length (select_column c df) = length df.
Proof. apply length_fmap. Qed.

Lemma select_column_iloc c (df : DataFrame) (i : nat) :
  (i < length df)%nat → iloc (select_column c df) i = [iloc df i !!! c].
Proof.
  intros Hi. unfold iloc, values, select_column.
  rewrite <- list_fmap_compose.
  rewrite (list_lookup_total_fmap _ df i) by done.
  by rewrite (list_lookup_total_fmap snd df i) by done.
Qed.

Lemma select_column_zip c (dates : list Z) (rows : list Row) :
  select_column c (zip dates rows) = zip dates ((λ r, [r !!! c]) <$> rows).
Proof.
  revert rows. induction dates as [|d dates IH]; intros [|r rows]; try done.
  simpl. f_equal. apply IH.
Qed.

(** The loop on one column is the column of the loop. *)
Lemma ER_run_column (price : DataFrame) (rate : Series) (c k : nat)
    (rows : list Row) :
  wf_frame price → (c < ncols price)%nat →
  length rows = length price →
  Forall (λ r, length r = ncols price) rows →
  (k < length price)%nat →
  ER_run (select_column c price) rate k ((λ r, [r !!! c]) <$> rows)
  = (λ r, [r !!! c]) <$> ER_run price rate k rows.
Proof.
  intros Hwf Hc Hlen Hw. induction k as [|k IH]; intros Hk; [done|].
  rewrite !ER_run_S, IH by lia. unfold ER_step.
  rewrite list_fmap_insert. f_equal.
  assert (Hprev : length (ER_run price rate k rows !!! (S k - 1)%nat)
                  = ncols price).
  { apply (proj1 (Forall_lookup_total _ _)
             (ER_run_widths price rate k rows Hwf Hlen Hw)).
    rewrite ER_run_length. lia. }
  rewrite (list_lookup_total_fmap _ (ER_run price rate k rows) (S k - 1))
    by (rewrite ER_run_length; lia).
  rewrite row_map2_lookup by (rewrite ?ER_factor_length; (done || lia)).
  unfold ER_factor. rewrite select_column_index.
  rewrite !select_column_iloc by lia.
  rewrite row_scalar_lookup
    by (rewrite row_map2_length, !wf_frame_iloc; (done || lia)).
  rewrite row_map2_lookup by (rewrite wf_frame_iloc; (done || lia)).
  done.
Qed.

(** X6.  Columns do not interact: running [make_ER] on column [c] alone
    gives column [c] of the output of [make_ER] on the whole table. *)
Theorem make_ER_column_independent (price : DataFrame) (rate : Series) (c : nat) :
  price ≠ [] → wf_frame price → (c < ncols price)%nat →
  ∃ er, make_ER price rate = Ok er ∧
    make_ER (select_column c price) rate = Ok (select_column c er).
Proof.
  intros Hne Hwf Hc.
  assert (Hn : (0 < length price)%nat) by (destruct price; simpl; [done|lia]).
  rewrite !make_ER_unfold by (done || by destruct price).
  eexists. split; [done|]. f_equal.
  rewrite select_column_zip, select_column_index, select_column_length.
  f_equal.
  assert (Hnc : ncols (select_column c price) = 1%nat) by (by destruct price).
  rewrite Hnc.
  rewrite <- ER_run_column; [| done | done | | | lia].
  - f_equal. rewrite list_fmap_insert, fmap_replicate.
    by rewrite !lookup_total_replicate_2 by done.
  - by rewrite length_insert, length_replicate.
  - apply Forall_insert; [|by rewrite length_replicate].
    apply Forall_replicate. by rewrite length_replicate.
Qed.

Lemma make_ER_column_independent_witness :
  ∃ er, make_ER price_ex rate_ex = Ok er ∧
    make_ER (select_column 1 price_ex) rate_ex = Ok (select_column 1 er).
Proof.
  apply make_ER_column_independent.
  - discriminate.
  - by_evaluation.
  - simpl. lia.
Defined.

(** ** [make_track]: shape *)

Lemma track_init_ok (df_price df_weight : DataFrame) :
  df_price ≠ [] → ∃ st0, track_init df_price df_weight = Ok st0.
Proof.
  intros Hne. destruct df_price as [|[dp p] rest]; [done|].
  unfold track_init.
  destruct df_weight as [|[dw w] weights]; simpl; [by eexists|].
  destruct (decide (dw = dp)); simpl; by eexists.
Qed.

(** X8.  The track has one value per date of the price table, under the
    same dates in the same order, and starts at 1. *)
Theorem make_track_shape (df_price df_weight : DataFrame) (tc : float) :
  df_price ≠ [] →
  ∃ track, make_track df_price df_weight tc = Ok track ∧
    index track = index df_price ∧
    length track = length df_price ∧
    values track !!! 0%nat = of_Z 1.
Proof.
  intros Hne.
  assert (Hn : (0 < length df_price)%nat)
    by (destruct df_price; simpl; [done|lia]).
  destruct (track_init_ok df_price df_weight Hne) as [st0 Hinit].
  assert (H0 : track_state df_price df_weight tc 0 = Ok st0)
    by (apply track_state_run; eauto).
  destruct (make_track_values _ _ _ _ _ H0 Hn) as (track & Htrack & Hidx & Hvals).
  exists track. split; [done|]. split; [done|]. split.
  - by rewrite <- (index_length track), Hidx, index_length.
  - rewrite Hvals by lia. rewrite (track_init_value _ _ _ Hinit).
    by rewrite lookup_total_replicate_2.
Qed.

Lemma make_track_shape_witness :
  ∃ track, make_track price_ex weight_ex tc_ex = Ok track ∧
    index track = index price_ex ∧
    length track = length price_ex ∧
    values track !!! 0%nat = of_Z 1.
Proof. apply make_track_shape. discriminate. Defined.

(** ** [make_track]: the date after a date that is not in the schedule *)

(** X9.  On a date whose predecessor is not a rebalancing date the holdings
    and the cash are carried over unchanged, and the track is their value at
    the prices of the day: [value[t] = sum (shares * price[t]) + cash]; no
    cost is charged. *)
Theorem make_track_hold (df_price df_weight : DataFrame) (tc : float)
    (t : nat) (st : PortfolioState) :
  NoDup (index df_price) → (1 ≤ t < length df_price)%nat →
  track_state df_price df_weight tc (t - 1) = Ok st →
  index df_price !!! (t - 1)%nat ∉ index df_weight →
  ∃ st' track,
    track_state df_price df_weight tc t = Ok st' ∧
    make_track df_price df_weight tc = Ok track ∧
    values track !!! t =
      (pd_sum (row_map2 fmul (shares st) (iloc df_price t)) + cash st)%F ∧
    shares st' = shares st ∧ cash st' = cash st.
Proof.
  intros Hnd Ht Hst Hlabel.
  assert (Hfalse : has_label (index df_price !!! (t - 1)%nat) df_weight = false)
    by (by apply bool_decide_eq_false).
  pose proof (track_state_S _ _ _ _ _ Hst) as Hst'.
  replace (S (t - 1)) with t in Hst' by lia.
  rewrite track_step_hold in Hst' by done.
  destruct (make_track_values _ _ _ _ _ Hst' (proj2 Ht))
    as (track & Htrack & _ & Hvals).
  eexists _, track. split; [exact Hst'|]. split; [done|].
  pose proof (track_state_value_length _ _ _ _ _ Hst) as Hlen.
  rewrite Hvals by lia. simpl.
  by rewrite list_lookup_total_insert_eq by lia.
Qed.

Lemma make_track_hold_witness :
  ∃ st st' track,
    track_state price_ab [(0, half_half)] tc_ex 1 = Ok st ∧
    track_state price_ab [(0, half_half)] tc_ex 2 = Ok st' ∧
    make_track price_ab [(0, half_half)] tc_ex = Ok track ∧
    values track !!! 2%nat =
      (pd_sum (row_map2 fmul (shares st) (iloc price_ab 2)) + cash st)%F ∧
    shares st' = shares st ∧ cash st' = cash st.
Proof.
  assert (Hnd : NoDup (index price_ab)) by by_evaluation.
  assert (Ht : (1 ≤ 2 < length price_ab)%nat) by (simpl; lia).
  assert (Hlabel : index price_ab !!! (2 - 1)%nat ∉ index [(0, half_half)])
    by by_evaluation.
  destruct (make_track_hold price_ab [(0, half_half)] tc_ex 2 _ Hnd Ht
              eq_refl Hlabel)
    as (st' & track & Hst' & Htrack & Hval & Hshares & Hcash).
  eexists _, st', track. split; [reflexivity|].
  split; [exact Hst'|]. split; [exact Htrack|].
  split; [exact Hval|]. split; [exact Hshares|exact Hcash].
Defined.

(** ** [make_track]: a schedule that does not start on the first price date *)

Lemma all_nan_scalar (f : float → float → float) (r : Row) (v : float) :
  (∀ b, f NaN b = NaN) →
  Forall (λ a, a = NaN) r → Forall (λ a, a = NaN) (row_scalar f r v).
Proof.
  intros Hf Hr. unfold row_scalar. apply Forall_fmap.
  eapply Forall_impl; [exact Hr|]. intros a ->. simpl. apply Hf.
Qed.

Lemma all_nan_map2_r (f : float → float → float) (w r : Row) :
  (∀ a, f a NaN = NaN) →
  Forall (λ a, a = NaN) r → Forall (λ a, a = NaN) (row_map2 f w r).
Proof.
  intros Hf Hr. revert w. induction Hr as [|b r -> _ IH]; intros [|a w];
    unfold row_map2 in *; simpl; try constructor; [done|apply IH].
Qed.

Lemma all_nan_fabs (r : Row) :
  Forall (λ a, a = NaN) r → Forall (λ a, a = NaN) (fabs <$> r).
Proof.
  intros Hr. apply Forall_fmap. eapply Forall_impl; [exact Hr|]. by intros a ->.
Qed.

Lemma nan_holdings_value (m : nat) (p : Row) :
  holdings_value (replicate m NaN) p = Fin 0%Qc.
Proof. unfold holdings_value. apply pd_sum_all_nan, fmul_nan_row. Qed.

(** Holdings that are all NaN cost nothing to rebalance. *)
Lemma nan_turnover_cost (tc : float) (m : nat) (w p : Row) :
  is_finite tc →
  turnover_cost tc (of_Z 1) w (replicate m NaN) p = Fin 0%Qc.
Proof.
  intros [q ->]%is_finite_Fin. unfold turnover_cost.
  rewrite pd_sum_all_nan.
  - unfold of_Z, of_Q. simpl. f_equal; ring.
  - apply all_nan_fabs, all_nan_map2_r; [apply fsub_nan_r|].
    apply all_nan_scalar; [apply fdiv_nan_l|]. apply fmul_nan_row.
Qed.

Lemma one_plus_zero : (Fin 0%Qc + of_Z 1)%F = of_Z 1.
Proof. unfold of_Z, of_Q. simpl. f_equal; ring. Qed.

(** The state before the loop when the schedule is empty or its first row
    is not dated like the first price row: no holdings, all in cash. *)
Lemma track_init_misaligned (df_price df_weight : DataFrame) :
  df_price ≠ [] → head (index df_weight) ≠ head (index df_price) →
  track_init df_price df_weight =
    Ok {| shares := replicate (ncols df_price) NaN;
          cash := of_Z 1;
          value := replicate (length df_price) (of_Z 1) |}.
Proof.
  intros Hne Hhead. destruct df_price as [|[dp p] rest]; [done|].
  unfold track_init.
  assert (Hfirst : first_row_div df_weight ((dp, p) :: rest)
                   = Ok (replicate (length p) NaN)).
  { destruct df_weight as [|[dw w] weights]; [done|]. simpl in *.
    rewrite decide_False; [done|]. by intros ->. }
  rewrite Hfirst. cbn -[holdings_value fsub of_Z iloc].
  rewrite decide_False by done. cbn -[holdings_value fsub of_Z iloc].
  rewrite nan_holdings_value, fsub_zero.
  unfold index. by rewrite length_fmap.
Qed.

(** X10.  When the weight schedule is empty, or its first row is not dated
    on the first price date, nothing is held at the start and the track
    stays at 1 on every date up to and including the date that follows the
    first rebalancing date; with an empty schedule the track is 1
    throughout.  No error is raised. *)
Theorem make_track_late_start (df_price df_weight : DataFrame) (tc : float)
    (t : nat) :
  df_price ≠ [] → NoDup (index df_price) → is_finite tc →
  head (index df_weight) ≠ head (index df_price) →
  (t < length df_price)%nat →
  (∀ j, (j + 1 < t)%nat → index df_price !!! j ∉ index df_weight) →
  ∃ track, make_track df_price df_weight tc = Ok track ∧
    values track !!! t = of_Z 1.
Proof.
  intros Hne Hnd Htc Hhead Ht Hquiet.
  set (st_q := {| shares := replicate (ncols df_price) NaN;
                  cash := of_Z 1;
                  value := replicate (length df_price) (of_Z 1) |}).
  pose proof (track_init_misaligned df_price df_weight Hne Hhead) as Hinit.
  fold st_q in Hinit.
  assert (Hid : ∀ i, (i < length df_price)%nat →
            <[i := of_Z 1]> (replicate (length df_price) (of_Z 1))
            = replicate (length df_price) (of_Z 1)).
  { intros i Hi. apply list_insert_id. by apply lookup_replicate_2. }
  assert (Hrun : ∀ k, (k < length df_price)%nat → (k < t)%nat →
            track_state df_price df_weight tc k = Ok st_q).
  { induction k as [|k IH]; intros Hk Hkt.
    - apply track_state_run. by exists st_q.
    - rewrite (track_state_S _ _ _ _ _ (IH ltac:(lia) ltac:(lia))).
      rewrite track_step_hold.
      + unfold st_q. cbn [shares cash value].
        by rewrite nan_holdings_value, one_plus_zero, Hid.
      + done.
      + lia.
      + replace (S k - 1)%nat with k by lia.
        apply bool_decide_eq_false, Hquiet. lia. }
  destruct t as [|k].
  - assert (H0 : track_state df_price df_weight tc 0 = Ok st_q)
      by (apply track_state_run; by exists st_q).
    destruct (make_track_values _ _ _ _ _ H0 Ht) as (track & Htrack & _ & Hvals).
    exists track. split; [done|]. rewrite Hvals by lia.
    unfold st_q. cbn [value]. by rewrite lookup_total_replicate_2.
  - pose proof (track_state_S _ _ _ _ _ (Hrun k ltac:(lia) ltac:(lia))) as Hst.
    assert (Hval : value (track_step df_price df_weight tc st_q (S k)) !!! S k
                   = of_Z 1).
    { destruct (has_label (index df_price !!! (S k - 1)%nat) df_weight)
        eqn:Hlabel.
      - rewrite track_step_rebalance by (done || lia).
        unfold st_q. cbn [shares cash value].
        rewrite lookup_total_replicate_2 by lia.
        rewrite nan_turnover_cost, nan_holdings_value, fsub_zero by done.
        rewrite one_plus_zero.
        by rewrite list_lookup_total_insert_eq by (rewrite length_replicate; lia).
      - rewrite track_step_hold by (done || lia).
        unfold st_q. cbn [shares cash value].
        rewrite nan_holdings_value, one_plus_zero.
        by rewrite list_lookup_total_insert_eq by (rewrite length_replicate; lia). }
    destruct (make_track_values _ _ _ _ _ Hst Ht) as (track & Htrack & _ & Hvals).
    exists track. split; [done|]. by rewrite Hvals by lia.
Qed.

Lemma make_track_late_start_witness :
  ∃ track, make_track price_ex weight_late tc_ex = Ok track ∧
    values track !!! 2%nat = of_Z 1.
Proof.
  apply make_track_late_start.
  - discriminate.
  - by_evaluation.
  - exact I.
  - discriminate.
  - simpl. lia.
  - intros j Hj. assert (j = 0%nat) as -> by lia. by_evaluation.
Defined.

(** ** [make_track]: rebalancing without transaction cost *)

Lemma fdiv_scalar_finite (r : Row) (v : Qc) :
  v ≠ 0%Qc → finite_row r → finite_row (row_scalar fdiv r (Fin v)).
Proof.
  intros Hv Hr. unfold row_scalar. apply Forall_fmap.
  eapply Forall_impl; [exact Hr|]. intros a [q ->]%is_finite_Fin. simpl.
  by rewrite decide_False.
Qed.

Lemma fsub_finite_row (r1 r2 : Row) :
  finite_row r1 → finite_row r2 → finite_row (row_map2 fsub r1 r2).
Proof.
  intros H1. revert r2. induction H1 as [|a r1 Ha _ IH]; intros r2 H2; [constructor|].
  destruct H2 as [|b r2 Hb H2]; [constructor|].
  constructor; [by apply fsub_finite|]. by apply IH.
Qed.

Lemma zero_tc_cost (v : Qc) (w s p : Row) :
  v ≠ 0%Qc → finite_row w → finite_row s → finite_row p →
  turnover_cost (Fin 0%Qc) (Fin v) w s p = Fin 0%Qc.
Proof.
  intros Hv Hw Hs Hp. unfold turnover_cost.
  assert (Hsum : is_finite
            (pd_sum (fabs <$> row_map2 fsub w
               (row_scalar fdiv (row_map2 fmul s p) (Fin v))))).
  { apply pd_sum_finite, fabs_finite_row, fsub_finite_row; [done|].
    apply fdiv_scalar_finite; [done|]. by apply fmul_finite_row. }
  apply is_finite_Fin in Hsum as [q ->]. simpl. f_equal; ring.
Qed.

(** X13.  With a transaction cost of zero, rebalancing changes the
    holdings but not the value: on the date after a rebalancing date the
    track is the value of the holdings carried into that date plus the cash,
    exactly as on a date without rebalancing, provided the previous track
    value is a non-zero number and holdings, weights and prices are
    numbers. *)
Theorem make_track_frictionless (df_price df_weight : DataFrame) (t : nat)
    (st : PortfolioState) :
  NoDup (index df_price) → (1 ≤ t < length df_price)%nat →
  track_state df_price df_weight (Fin 0%Qc) (t - 1) = Ok st →
  index df_price !!! (t - 1)%nat ∈ index df_weight →
  nonzero (value st !!! (t - 1)%nat) →
  finite_row (shares st) →
  finite_row (loc df_weight (index df_price !!! (t - 1)%nat)) →
  finite_row (iloc df_price (t - 1)) →
  ∃ track, make_track df_price df_weight (Fin 0%Qc) = Ok track ∧
    values track !!! t =
      (pd_sum (row_map2 fmul (shares st) (iloc df_price t)) + cash st)%F.
Proof.
  intros Hnd Ht Hst Hlabel [[v Hv]%is_finite_Fin Hnz] Hs Hw Hp.
  assert (Htrue : has_label (index df_price !!! (t - 1)%nat) df_weight = true)
    by (by apply bool_decide_eq_true).
  pose proof (track_state_S _ _ _ _ _ Hst) as Hst'.
  replace (S (t - 1)) with t in Hst' by lia.
  rewrite track_step_rebalance in Hst' by done.
  destruct (make_track_values _ _ _ _ _ Hst' (proj2 Ht))
    as (track & Htrack & _ & Hvals).
  exists track. split; [done|].
  pose proof (track_state_value_length _ _ _ _ _ Hst) as Hlen.
  rewrite Hvals by lia. cbn [value].
  rewrite list_lookup_total_insert_eq by lia.
  rewrite Hv, zero_tc_cost, fsub_zero; [done| |done..].
  intros ->. by rewrite Hv in Hnz.
Qed.

Lemma make_track_frictionless_witness :
  ∃ st track,
    track_state price_ex weight_ex (Fin 0%Qc) 1 = Ok st ∧
    make_track price_ex weight_ex (Fin 0%Qc) = Ok track ∧
    values track !!! 2%nat =
      (pd_sum (row_map2 fmul (shares st) (iloc price_ex 2)) + cash st)%F.
Proof.
  assert (Hnd : NoDup (index price_ex)) by by_evaluation.
  assert (Ht : (1 ≤ 2 < length price_ex)%nat) by (simpl; lia).
  assert (Hlabel : index price_ex !!! (2 - 1)%nat ∈ index weight_ex)
    by by_evaluation.
  destruct (track_state price_ex weight_ex (Fin 0%Qc) 1) as [st|] eqn:Hst;
    [|vm_compute in Hst; discriminate Hst].
  assert (Hfacts : nonzero (value st !!! (2 - 1)%nat) ∧ finite_row (shares st)).
  { pose proof Hst as Hc. vm_compute in Hc. injection Hc as <-.
    split; sample_rows. }
  destruct Hfacts as [Hv Hs].
  assert (Hw : finite_row (loc weight_ex (index price_ex !!! (2 - 1)%nat)))
    by sample_rows.
  assert (Hp : finite_row (iloc price_ex (2 - 1))) by sample_rows.
  destruct (make_track_frictionless price_ex weight_ex 2 st Hnd Ht Hst Hlabel
              Hv Hs Hw Hp) as (track & Htrack & Hval).
  exists st, track. split; [reflexivity|]. split; [exact Htrack|exact Hval].
Defined.

(** ** The estimators: arguments they refuse, series too short *)

Lemma for_each_raises {S} (body : S → nat → result S) (l : list nat) (s : S) e :
  for_each body l s = Raise e → ∃ s' i, i ∈ l ∧ body s' i = Raise e.
Proof.
  revert s. induction l as [|j l IH]; intros s; simpl; [done|].
  destruct (body s j) as [s'|e'] eqn:Hbody; simpl.
  - intros (s'' & i & Hi & Hraise)%IH. exists s'', i.
    split; [|done]. apply elem_of_cons. by right.
  - intros [= ->]. exists s, j. split; [|done]. apply elem_of_cons. by left.
Qed.

Lemma py_index_raises (l : list Z) (j : Z) e :
  py_index l j = Raise e → e = IndexError.
Proof. unfold py_index. repeat case_decide; congruence. Qed.

Lemma window_raises (idx : list Z) (sample_length frequency : Z) (i : nat) e :
  window idx sample_length frequency i = Raise e → e = IndexError.
Proof.
  unfold window.
  destruct (py_index idx (Z.of_nat i * frequency)) eqn:E1; simpl.
  - destruct (py_index idx (Z.of_nat i * frequency + sample_length)) eqn:E2;
      simpl; [done|]. intros [= <-]. by eapply py_index_raises.
  - intros [= <-]. by eapply py_index_raises.
Qed.

Lemma set_row_raises (m : nat) (df : DataFrame) (d : Z) (row : Row) e :
  set_row m df d row = Raise e → e = ValueError.
Proof. unfold set_row. case_decide; congruence. Qed.

Lemma rescale_raises (w : ERWindow) (z : Row) e :
  rescale w z = Raise e → e = IndexError ∨ e = ValueError.
Proof. unfold rescale. repeat case_decide; intros [= <-]; eauto. Qed.

(** X14.  Each estimator raises a [ZeroDivisionError] exactly when
    [frequency] is zero (and then before any window is looked at): with any
    other [frequency] no window raises one, whatever the data are and
    whatever the solver returns. *)
Theorem estimators_zero_frequency
    (minimize : Problem → OptimizeResult) (sqrt : float → float)
    (df_y df_x : DataFrame) (sample_length frequency : Z)
    (boundaries : float * float) (weight_sum lambda_ : float) :
  (ols_regression minimize df_y df_x sample_length frequency boundaries
     weight_sum = Raise ZeroDivisionError ↔ frequency = 0) ∧
  (ols_regression_ER minimize sqrt df_y df_x sample_length frequency
     boundaries weight_sum = Raise ZeroDivisionError ↔ frequency = 0) ∧
  (lasso_regression_ER minimize sqrt df_y df_x sample_length frequency
     lambda_ boundaries weight_sum = Raise ZeroDivisionError ↔ frequency = 0).
Proof.
  unfold ols_regression, ols_regression_ER, lasso_regression_ER, floordiv.
  destruct (decide (frequency = 0)) as [->|Hf]; [done|]. simpl.
  split; [|split]; (split; [|done]); intros (W & i & _ & Hbody)%for_each_raises;
    exfalso;
    destruct (window _ _ _ _) as [[s e]|err] eqn:Hwin; simpl in Hbody.
  - by apply set_row_raises in Hbody.
  - injection Hbody as ->. by apply window_raises in Hwin.
  - destruct (rescale _ _) as [row|err] eqn:Hres; simpl in Hbody.
    + by apply set_row_raises in Hbody.
    + injection Hbody as ->. by apply rescale_raises in Hres as [?|?].
  - injection Hbody as ->. by apply window_raises in Hwin.
  - destruct (rescale _ _) as [row|err] eqn:Hres; simpl in Hbody.
    + by apply set_row_raises in Hbody.
    + injection Hbody as ->. by apply rescale_raises in Hres as [?|?].
  - injection Hbody as ->. by apply window_raises in Hwin.
Qed.

Lemma no_window (n sample_length frequency : Z) :
  0 < frequency → n - sample_length < frequency →
  range ((n - sample_length) `div` frequency) = [].
Proof.
  intros Hf Hn. unfold range.
  assert ((n - sample_length) `div` frequency ≤ 0) as Hk.
  { destruct (decide (n - sample_length < 0)).
    - apply Z.lt_le_incl, Z.div_lt_upper_bound; lia.
    - rewrite Z.div_small; lia. }
  by replace (Z.to_nat _) with 0%nat by lia.
Qed.

(** X15.  With a positive [frequency], a regressor table of fewer than
    [sample_length + frequency] rows gives an empty schedule: no window is
    fitted, the solver is not consulted and no error is raised. *)
Theorem estimators_short_series
    (minimize : Problem → OptimizeResult) (sqrt : float → float)
    (df_y df_x : DataFrame) (sample_length frequency : Z)
    (boundaries : float * float) (weight_sum lambda_ : float) :
  0 < frequency →
  Z.of_nat (length df_x) < sample_length + frequency →
  ols_regression minimize df_y df_x sample_length frequency boundaries
    weight_sum = Ok [] ∧
  ols_regression_ER minimize sqrt df_y df_x sample_length frequency
    boundaries weight_sum = Ok [] ∧
  lasso_regression_ER minimize sqrt df_y df_x sample_length frequency
    lambda_ boundaries weight_sum = Ok [].
Proof.
  intros Hf Hn.
  unfold ols_regression, ols_regression_ER, lasso_regression_ER, floordiv.
  rewrite decide_False by lia. simpl.
  by rewrite no_window by lia.
Qed.

Lemma estimators_short_series_witness :
  ols_regression probe_minimize target_ex regressors_ex 4 1 unbounded NaN
    = Ok [] ∧
  ols_regression_ER probe_minimize sqrt_newton target_ex regressors_ex 4 1
    unbounded NaN = Ok [] ∧
  lasso_regression_ER probe_minimize sqrt_newton target_ex regressors_ex 4 1
    (of_Z 1) unbounded NaN = Ok [].
Proof. apply estimators_short_series; simpl; lia. Defined.

(** X16.  When at least one window is due ([frequency] positive,
    [0 ≤ sample_length], at least [sample_length + frequency] regressor
    rows) but the target has no more than [sample_length] rows, the end of
    the first window lies outside the target's index and each estimator
    raises an [IndexError]; no partial schedule is returned. *)
Theorem estimators_target_too_short
    (minimize : Problem → OptimizeResult) (sqrt : float → float)
    (df_y df_x : DataFrame) (sample_length frequency : Z)
    (boundaries : float * float) (weight_sum lambda_ : float) :
  0 < frequency → 0 ≤ sample_length →
  sample_length + frequency ≤ Z.of_nat (length df_x) →
  Z.of_nat (length df_y) ≤ sample_length →
  ols_regression minimize df_y df_x sample_length frequency boundaries
    weight_sum = Raise IndexError ∧
  ols_regression_ER minimize sqrt df_y df_x sample_length frequency
    boundaries weight_sum = Raise IndexError ∧
  lasso_regression_ER minimize sqrt df_y df_x sample_length frequency
    lambda_ boundaries weight_sum = Raise IndexError.
Proof.
  intros Hf Hsl Hx Hy.
  assert (Hk : ∃ k', range ((Z.of_nat (length df_x) - sample_length)
                              `div` frequency) = 0%nat :: k').
  { unfold range.
    assert (1 ≤ (Z.of_nat (length df_x) - sample_length) `div` frequency)
      by (apply Z.div_le_lower_bound; lia).
    destruct (Z.to_nat _) as [|k'] eqn:E; [lia|]. simpl. eauto. }
  destruct Hk as [k' Hk].
  assert (Hwin : window (index df_y) sample_length frequency 0
                 = Raise IndexError).
  { unfold window, py_index. rewrite index_length.
    replace (Z.of_nat 0 * frequency + sample_length) with sample_length by lia.
    replace (Z.of_nat 0 * frequency) with 0 by lia.
    rewrite (decide_False (P := 0 ≤ sample_length < _)) by lia.
    rewrite (decide_False (P := _ ≤ sample_length < 0)) by lia.
    destruct (decide (0 ≤ 0 < _)); [done|].
    by destruct (decide (_ ≤ 0 < 0)). }
  unfold ols_regression, ols_regression_ER, lasso_regression_ER, floordiv.
  rewrite decide_False by lia. simpl. rewrite Hk. simpl.
  by rewrite Hwin.
Qed.

Lemma estimators_target_too_short_witness :
  ols_regression probe_minimize short_target regressors_ex 2 1 unbounded NaN
    = Raise IndexError ∧
  ols_regression_ER probe_minimize sqrt_newton short_target regressors_ex 2 1
    unbounded NaN = Raise IndexError ∧
  lasso_regression_ER probe_minimize sqrt_newton short_target regressors_ex
    2 1 (of_Z 1) unbounded NaN = Raise IndexError.
Proof. apply estimators_target_too_short; simpl; lia. Defined.

(** ** The estimators: what a window holds *)

(** X17.  When target and regressors share one increasing index, window
    [i] of each estimator is made of the [sample_length + 1] consecutive
    rows at the positions [i * frequency], ..., [i * frequency +
    sample_length] of both tables, the two end dates included; consecutive
    windows therefore share rows as soon as [frequency ≤ sample_length]. *)
Theorem estimators_window_rows (df_y df_x : DataFrame)
    (sample_length frequency : Z) (i : nat) :
  StronglySorted Z.lt (index df_y) → index df_x = index df_y →
  0 ≤ sample_length < Z.of_nat (length df_y) → 0 < frequency →
  (i < window_count df_y sample_length frequency)%nat →
  let s := window_start df_y frequency i in
  let e := window_end df_y sample_length frequency i in
  let first := Z.to_nat (Z.of_nat i * frequency) in
  loc_slice df_x s e = take (S (Z.to_nat sample_length)) (drop first df_x) ∧
  loc_slice df_y s e = take (S (Z.to_nat sample_length)) (drop first df_y) ∧
  length (loc_slice df_x s e) = S (Z.to_nat sample_length) ∧
  length (loc_slice df_y s e) = S (Z.to_nat sample_length).
Proof.
  intros Hsorted Hidx Hsl Hfreq Hi s e first.
  destruct (window_in_range df_y sample_length frequency Hsl Hfreq i Hi)
    as [H0 H1].
  assert (Hlen : length df_x = length df_y)
    by (by rewrite <- (index_length df_x), Hidx, index_length).
  assert (He : e = index df_y !!! (first + Z.to_nat sample_length)%nat).
  { unfold e, window_end, first. f_equal. lia. }
  assert (Hy : loc_slice df_y s e
               = take (S (Z.to_nat sample_length)) (drop first df_y)).
  { rewrite He. apply loc_slice_block; [done|]. unfold first. lia. }
  assert (Hx : loc_slice df_x s e
               = take (S (Z.to_nat sample_length)) (drop first df_x)).
  { rewrite He. unfold s, window_start. fold first. rewrite <- Hidx.
    apply loc_slice_block; [by rewrite Hidx|]. unfold first. lia. }
  split; [done|]. split; [done|].
  rewrite Hx, Hy, !length_take, !length_drop. unfold first. lia.
Qed.

Lemma estimators_window_rows_witness :
  loc_slice regressors_ex (window_start target_ex 1 1) (window_end target_ex 2 1 1)
    = take 3 (drop 1 regressors_ex) ∧
  length (loc_slice target_ex (window_start target_ex 1 1)
            (window_end target_ex 2 1 1)) = 3%nat.
Proof.
  destruct (estimators_window_rows target_ex regressors_ex 2 1 1)
    as (Hx & _ & _ & Hy).
  - exact sample_sorted.
  - reflexivity.
  - simpl. lia.
  - lia.
  - vm_compute. lia.
  - split; [exact Hx|exact Hy].
Defined.

(** ** The standardized estimators: weights that come out as NaN *)

Lemma rescaled_lookup (w : ERWindow) (z : Row) (c : nat) :
  (c < length z)%nat → (c < length (std_x w))%nat →
  rescaled w z !!! c = (std_y w !!! 0%nat * z !!! c / std_x w !!! c)%F.
Proof.
  intros Hz Hs. unfold rescaled.
  rewrite row_map2_lookup by (rewrite ?row_scalar_length; done).
  by rewrite row_scalar_lookup.
Qed.

Section NaNWeights.
Variables (minimize : Problem → OptimizeResult) (sqrt : float → float).
Variables (df_y df_x : DataFrame) (sample_length frequency : Z).
Variables (boundaries : float * float) (weight_sum lambda_ : float).

Hypothesis Hdim : keeps_dimension minimize.
Hypothesis Hsorted : StronglySorted Z.lt (index df_y).
Hypothesis Hcol : (0 < ncols df_y)%nat.
Hypothesis Hlen : length df_x = length df_y.
Hypothesis Hsl : 0 ≤ sample_length < Z.of_nat (length df_y).
Hypothesis Hfreq : 0 < frequency.

Local Abbreviation k := (window_count df_y sample_length frequency).
Local Abbreviation stop := (window_end df_y sample_length frequency).
Local Abbreviation start := (window_start df_y frequency).

(** The rows the two standardized estimators store for window [i], and an
    entry of each. *)
Lemma ER_rows_entry (i c : nat) :
  (i < k)%nat → (c < ncols df_x)%nat →
  let w := ER_window sqrt df_y df_x (start i) (stop i) in
  ∃ W2 W3 row2 row3 z2 z3,
    ols_regression_ER minimize sqrt df_y df_x sample_length frequency
      boundaries weight_sum = Ok W2 ∧
    W2 !! i = Some (stop i, row2) ∧
    lasso_regression_ER minimize sqrt df_y df_x sample_length frequency
      lambda_ boundaries weight_sum = Ok W3 ∧
    W3 !! i = Some (stop i, row3) ∧
    length row2 = ncols df_x ∧ length row3 = ncols df_x ∧
    row2 !!! c = (std_y w !!! 0%nat * z2 / std_x w !!! c)%F ∧
    row3 !!! c = (std_y w !!! 0%nat * z3 / std_x w !!! c)%F.
Proof.
  intros Hi Hc w.
  eexists _, _, _, _, _, _.
  split; [by apply ols_regression_ER_rows|].
  split; [by apply rows_lookup|].
  split; [by apply lasso_regression_ER_rows|].
  split; [by apply rows_lookup|].
  split; [by apply ols_ER_row_length|].
  split; [by apply lasso_ER_row_length|].
  unfold ols_ER_row, lasso_ER_row. fold w.
  split; apply rescaled_lookup; unfold w;
    rewrite ?std_x_length, ?ols_ER_fit_length, ?lasso_ER_fit_length by done;
    done.
Qed.

End NaNWeights.

(** X18.  In the two standardized estimators, under the conditions under
    which a schedule is returned, the weight stored for a regressor column
    whose standard deviation over the window is zero is NaN, not zero: the
    fitted coefficient is rescaled through a division by the standard
    deviation that was replaced by NaN. *)
Theorem zero_variance_weight_is_nan
    (minimize : Problem → OptimizeResult) (sqrt : float → float)
    (df_y df_x : DataFrame) (sample_length frequency : Z)
    (boundaries : float * float) (weight_sum lambda_ : float) (i j : nat) :
  keeps_dimension minimize →
  StronglySorted Z.lt (index df_y) →
  (0 < ncols df_y)%nat →
  length df_x = length df_y →
  0 ≤ sample_length < Z.of_nat (length df_y) →
  0 < frequency →
  (i < window_count df_y sample_length frequency)%nat →
  (j < ncols df_x)%nat →
  let s := window_start df_y frequency i in
  let e := window_end df_y sample_length frequency i in
  pd_std sqrt (column (values (loc_slice df_x s e)) j) = Fin 0%Qc →
  ∃ W2 W3 row2 row3,
    ols_regression_ER minimize sqrt df_y df_x sample_length frequency
      boundaries weight_sum = Ok W2 ∧
    W2 !! i = Some (e, row2) ∧ row2 !!! j = NaN ∧
    lasso_regression_ER minimize sqrt df_y df_x sample_length frequency
      lambda_ boundaries weight_sum = Ok W3 ∧
    W3 !! i = Some (e, row3) ∧ row3 !!! j = NaN.
Proof.
  intros Hdim Hsorted Hcol Hlen Hsl Hfreq Hi Hj s e Hstd.
  destruct (ER_rows_entry minimize sqrt df_y df_x sample_length frequency
              boundaries weight_sum lambda_ Hdim Hsorted Hcol Hlen Hsl Hfreq
              i j Hi Hj)
    as (W2 & W3 & row2 & row3 & z2 & z3 & H2 & Hr2 & H3 & Hr3 & _ & _ & He2 & He3).
  assert (Hnan : std_x (ER_window sqrt df_y df_x s e) !!! j = NaN).
  { simpl. rewrite window_std_lookup by done.
    rewrite Hstd. unfold zero_to_nan. by rewrite decide_True. }
  fold s e in He2, He3. rewrite Hnan, fdiv_nan in He2, He3.
  by exists W2, W3, row2, row3.
Qed.

Lemma zero_variance_weight_is_nan_witness :
  ∃ W2 W3 row2 row3,
    ols_regression_ER probe_minimize sqrt_newton target_ex regressors_ex 2 1
      unbounded NaN = Ok W2 ∧
    W2 !! 0%nat = Some (14, row2) ∧ row2 !!! 1%nat = NaN ∧
    lasso_regression_ER probe_minimize sqrt_newton target_ex regressors_ex 2 1
      (of_Z 1) unbounded NaN = Ok W3 ∧
    W3 !! 0%nat = Some (14, row3) ∧ row3 !!! 1%nat = NaN.
Proof.
  apply (zero_variance_weight_is_nan probe_minimize sqrt_newton target_ex
           regressors_ex 2 1 unbounded NaN (of_Z 1) 0 1).
  - exact probe_keeps_dimension.
  - exact sample_sorted.
  - simpl. lia.
  - reflexivity.
  - simpl. lia.
  - lia.
  - vm_compute. lia.
  - simpl. lia.
  - vm_compute. reflexivity.
Defined.

(** X19.  In the two standardized estimators, under the conditions under
    which a schedule is returned, a window over which the target has a zero
    standard deviation gets a row made of NaN only: every fitted coefficient
    is multiplied by the target's standard deviation, which was replaced by
    NaN. *)
Theorem constant_target_row_is_nan
    (minimize : Problem → OptimizeResult) (sqrt : float → float)
    (df_y df_x : DataFrame) (sample_length frequency : Z)
    (boundaries : float * float) (weight_sum lambda_ : float) (i : nat) :
  keeps_dimension minimize →
  StronglySorted Z.lt (index df_y) →
  (0 < ncols df_y)%nat →
  length df_x = length df_y →
  0 ≤ sample_length < Z.of_nat (length df_y) →
  0 < frequency →
  (i < window_count df_y sample_length frequency)%nat →
  let s := window_start df_y frequency i in
  let e := window_end df_y sample_length frequency i in
  pd_std sqrt (column (values (loc_slice df_y s e)) 0) = Fin 0%Qc →
  ∃ W2 W3,
    ols_regression_ER minimize sqrt df_y df_x sample_length frequency
      boundaries weight_sum = Ok W2 ∧
    W2 !! i = Some (e, replicate (ncols df_x) NaN) ∧
    lasso_regression_ER minimize sqrt df_y df_x sample_length frequency
      lambda_ boundaries weight_sum = Ok W3 ∧
    W3 !! i = Some (e, replicate (ncols df_x) NaN).
Proof.
  intros Hdim Hsorted Hcol Hlen Hsl Hfreq Hi s e Hstd.
  assert (Hnan : std_y (ER_window sqrt df_y df_x s e) !!! 0%nat = NaN).
  { simpl. rewrite window_std_lookup by done.
    rewrite Hstd. unfold zero_to_nan. by rewrite decide_True. }
  assert (Hrow : ∀ z, length z = ncols df_x →
            rescaled (ER_window sqrt df_y df_x s e) z
            = replicate (ncols df_x) NaN).
  { intros z Hz. apply list_eq_same_length with (ncols df_x).
    - by rewrite length_replicate.
    - by rewrite rescaled_length.
    - intros c a b Hc Ha Hb.
      apply lookup_replicate in Hb as [-> _].
      apply list_lookup_total_correct in Ha.
      rewrite rescaled_lookup in Ha by (rewrite ?std_x_length; lia).
      by rewrite Hnan, fmul_nan_l, fdiv_nan_l in Ha. }
  exists ((λ i, (window_end df_y sample_length frequency i,
                 ols_ER_row minimize sqrt df_y df_x sample_length frequency
                   boundaries weight_sum i))
            <$> seq 0 (window_count df_y sample_length frequency)),
         ((λ i, (window_end df_y sample_length frequency i,
                 lasso_ER_row minimize sqrt df_y df_x sample_length frequency
                   lambda_ boundaries weight_sum i))
            <$> seq 0 (window_count df_y sample_length frequency)).
  split; [by apply ols_regression_ER_rows|].
  split; [|split; [by apply lasso_regression_ER_rows|]].
  - rewrite rows_lookup by done. unfold ols_ER_row. fold s e.
    by rewrite Hrow by by apply ols_ER_fit_length.
  - rewrite rows_lookup by done. unfold lasso_ER_row. fold s e.
    by rewrite Hrow by by apply lasso_ER_fit_length.
Qed.

Lemma constant_target_row_is_nan_witness :
  ∃ W2 W3,
    ols_regression_ER probe_minimize sqrt_newton flat_target regressors_ex 2 1
      unbounded NaN = Ok W2 ∧
    W2 !! 0%nat = Some (14, replicate (ncols regressors_ex) NaN) ∧
    lasso_regression_ER probe_minimize sqrt_newton flat_target regressors_ex
      2 1 (of_Z 1) unbounded NaN = Ok W3 ∧
    W3 !! 0%nat = Some (14, replicate (ncols regressors_ex) NaN).
Proof.
  apply (constant_target_row_is_nan probe_minimize sqrt_newton flat_target
           regressors_ex 2 1 unbounded NaN (of_Z 1) 0).
  - exact probe_keeps_dimension.
  - repeat constructor; simpl; lia.
  - simpl. lia.
  - reflexivity.
  - simpl. lia.
  - lia.
  - vm_compute. lia.
  - vm_compute. reflexivity.
Defined.

(** ** No look-ahead *)

Lemma first_rows_index {A} (m : nat) (df : list (date * A)) :
  index (first_rows m df) = take m (index df).
Proof. unfold index, first_rows. by rewrite fmap_take. Qed.

Lemma first_rows_length {A} (m : nat) (df : list (date * A)) :
  (m ≤ length df)%nat → length (first_rows m df) = m.
Proof. intros Hm. unfold first_rows. rewrite length_take. lia. Qed.

Lemma first_rows_ncols (m : nat) (df : DataFrame) :
  (0 < m)%nat → ncols (first_rows m df) = ncols df.
Proof. intros Hm. destruct m; [lia|]. by destruct df. Qed.

Lemma first_rows_iloc (m : nat) (df : DataFrame) (i : nat) :
  (i < m)%nat → iloc (first_rows m df) i = iloc df i.
Proof.
  intros Hi. unfold iloc, values, first_rows. rewrite fmap_take.
  by apply lookup_total_take_lt.
Qed.

Lemma first_rows_zip {A} (m : nat) (dates : list date) (l : list A) :
  first_rows m (zip dates l) = zip (take m dates) (take m l).
Proof. apply zip_with_take. Qed.

(** A label of the first [m] rows is found among them, at the place where it
    is found in the whole table. *)
Lemma find_label_first_rows {A} (s : list (date * A)) (m j : nat) :
  (j < m)%nat → (j < length s)%nat →
  find_label (index s !!! j) (first_rows m s) = find_label (index s !!! j) s.
Proof.
  revert m j. induction s as [|[d a] s IH]; intros m j Hm Hj;
    [by destruct m|].
  destruct m as [|m]; [lia|]. unfold first_rows. simpl take.
  change (index ((d, a) :: s)) with (d :: index s). simpl find_label.
  destruct (decide (d = (d :: index s) !!! j)) as [E|E]; [done|].
  destruct j as [|j]; [done|]. simpl in Hj.
  change ((d :: index s) !!! S j) with (index s !!! j).
  apply IH; lia.
Qed.

Lemma loc_first_rows {A} `{Inhabited A} (s : list (date * A)) (m j : nat) :
  (j < m)%nat → (j < length s)%nat →
  loc (first_rows m s) (index s !!! j) = loc s (index s !!! j).
Proof. intros Hm Hj. unfold loc. by rewrite find_label_first_rows. Qed.

Lemma ffill_from_take (last : float) (s : Series) (m : nat) :
  ffill_from last (take m s) = take m (ffill_from last s).
Proof.
  revert last m. induction s as [|[d x] s IH]; intros last m.
  - by destruct m.
  - destruct m as [|m]; [done|]. simpl. f_equal. apply IH.
Qed.

Lemma ER_factor_first_rows (price : DataFrame) (rate : Series) (m i : nat) :
  (1 ≤ i < m)%nat → (m ≤ length price)%nat →
  ER_factor (first_rows m price)
    (ffill (reindex rate (index (first_rows m price)))) i =
  ER_factor price (ffill (reindex rate (index price))) i.
Proof.
  intros Hi Hm. unfold ER_factor.
  rewrite !first_rows_iloc by lia. rewrite first_rows_index.
  unfold days. rewrite !lookup_total_take_lt by lia.
  f_equal. f_equal. f_equal.
  unfold reindex at 1. rewrite fmap_take. fold (reindex rate (index price)).
  unfold ffill. rewrite ffill_from_take.
  set (s := ffill_from NaN (reindex rate (index price))).
  assert (Hs : index s = index price)
    by (unfold s; by rewrite ffill_from_index, reindex_index).
  rewrite <- Hs. apply (loc_first_rows s); [lia|].
  rewrite <- (index_length s), Hs, index_length. lia.
Qed.

(** The loop run on the first [m] rows writes what the loop run on the whole
    table writes in its first [m] rows. *)
Lemma ER_run_first_rows (price : DataFrame) (rate rate_m : Series)
    (m k : nat) (rows : list Row) :
  (∀ i, (1 ≤ i < m)%nat →
     ER_factor (first_rows m price) rate_m i = ER_factor price rate i) →
  (k < m)%nat →
  ER_run (first_rows m price) rate_m k (take m rows) =
  take m (ER_run price rate k rows).
Proof.
  intros Hf. induction k as [|k IH]; intros Hk; [done|].
  rewrite !ER_run_S, IH by lia. unfold ER_step.
  rewrite take_insert_lt by lia. f_equal.
  rewrite lookup_total_take_lt by lia. rewrite Hf by lia. done.
Qed.

Lemma ER_run_take_stable (price : DataFrame) (rate : Series)
    (m k : nat) (rows : list Row) :
  (m - 1 ≤ k)%nat →
  take m (ER_run price rate k rows) = take m (ER_run price rate (m - 1) rows).
Proof.
  intros Hk. induction Hk as [|k Hk IH]; [done|].
  rewrite ER_run_S. unfold ER_step. rewrite take_insert_ge by lia. apply IH.
Qed.

(** X21.  [make_ER] does not look ahead: on the first [m] rows of a price
    table (dates pairwise distinct) it returns the first [m] rows of what it
    returns on the whole table, so that a row of the output depends on the
    prices and rates up to its own date only. *)
Theorem make_ER_no_look_ahead (price : DataFrame) (rate : Series) (m : nat) :
  NoDup (index price) → (1 ≤ m ≤ length price)%nat →
  ∃ er, make_ER price rate = Ok er ∧
    make_ER (first_rows m price) rate = Ok (first_rows m er).
Proof.
  intros _ Hm.
  assert (Hne : price ≠ []) by (intros ->; simpl in Hm; lia).
  assert (Hne' : first_rows m price ≠ []).
  { intros E. apply (f_equal length) in E.
    rewrite first_rows_length in E by lia. simpl in E. lia. }
  rewrite !make_ER_unfold by done.
  eexists. split; [done|]. f_equal.
  rewrite first_rows_zip.
  rewrite first_rows_index, first_rows_length, first_rows_ncols by lia.
  f_equal.
  rewrite (ER_run_take_stable _ _ m (length price - 1)) by lia.
  rewrite <- (ER_run_first_rows price _
               (ffill (reindex rate (take m (index price))))).
  - f_equal. rewrite take_insert_lt by lia. f_equal.
    rewrite take_replicate. f_equal. lia.
  - intros i Hi. rewrite <- first_rows_index.
    apply ER_factor_first_rows; lia.
  - lia.
Qed.

Lemma make_ER_no_look_ahead_witness :
  ∃ er, make_ER price_ex rate_ex = Ok er ∧
    make_ER (first_rows 2 price_ex) rate_ex = Ok (first_rows 2 er).
Proof.
  apply (make_ER_no_look_ahead price_ex rate_ex 2).
  - by_evaluation.
  - simpl. lia.
Defined.

Lemma first_row_div_first_rows (df_weight df_price : DataFrame) (m : nat) :
  (0 < m)%nat →
  first_row_div df_weight (first_rows m df_price) =
  first_row_div df_weight df_price.
Proof. intros Hm. destruct m; [lia|]. by destruct df_price. Qed.

Lemma track_init_first_rows (df_price df_weight : DataFrame) (m : nat)
    (st0 : PortfolioState) :
  (1 ≤ m ≤ length df_price)%nat →
  track_init df_price df_weight = Ok st0 →
  track_init (first_rows m df_price) df_weight = Ok (first_values m st0).
Proof.
  intros Hm. unfold track_init.
  rewrite first_row_div_first_rows by lia.
  destruct (first_row_div df_weight df_price) as [s|]; [|done]. simpl.
  rewrite !index_length, first_rows_length by lia.
  rewrite !decide_False by lia. simpl.
  rewrite first_rows_iloc by lia.
  intros [= <-]. unfold first_values. simpl.
  by rewrite take_replicate, Nat.min_l by lia.
Qed.

Lemma track_step_first_rows (df_price df_weight : DataFrame) (tc : float)
    (m i : nat) (st : PortfolioState) :
  (1 ≤ i < m)%nat → (m ≤ length df_price)%nat →
  track_step (first_rows m df_price) df_weight tc (first_values m st) i =
  first_values m (track_step df_price df_weight tc st i).
Proof.
  intros Hi Hm. unfold track_step.
  rewrite first_rows_index, !lookup_total_take_lt by lia.
  rewrite !loc_first_rows by lia.
  unfold first_values at 1 2 3 4 5 6 7. simpl shares. simpl cash. simpl value.
  rewrite lookup_total_take_lt by lia.
  destruct (has_label _ _); unfold first_values; simpl;
    by rewrite take_insert_lt by lia.
Qed.

Lemma track_run_first_rows (df_price df_weight : DataFrame) (tc : float)
    (m k : nat) (st : PortfolioState) :
  (k < m)%nat → (m ≤ length df_price)%nat →
  track_run (first_rows m df_price) df_weight tc k (first_values m st) =
  first_values m (track_run df_price df_weight tc k st).
Proof.
  intros Hk Hm. induction k as [|k IH]; [done|].
  rewrite !track_run_S, IH by lia. apply track_step_first_rows; lia.
Qed.

Lemma track_run_take_stable (df_price df_weight : DataFrame) (tc : float)
    (m k : nat) (st : PortfolioState) :
  (m - 1 ≤ k)%nat →
  take m (value (track_run df_price df_weight tc k st)) =
  take m (value (track_run df_price df_weight tc (m - 1) st)).
Proof.
  intros Hk. induction Hk as [|k Hk IH]; [done|].
  rewrite track_run_S, track_step_value, take_insert_ge by lia. apply IH.
Qed.

(** X22.  [make_track] does not look ahead: on the first [m] rows of a price
    table (dates pairwise distinct), with the same schedule and the same
    transaction cost, it returns the first [m] values of the track it
    returns on the whole table. *)
Theorem make_track_no_look_ahead (df_price df_weight : DataFrame) (tc : float)
    (m : nat) :
  NoDup (index df_price) → (1 ≤ m ≤ length df_price)%nat →
  ∃ track, make_track df_price df_weight tc = Ok track ∧
    make_track (first_rows m df_price) df_weight tc = Ok (first_rows m track).
Proof.
  intros _ Hm.
  assert (Hne : df_price ≠ []) by (intros ->; simpl in Hm; lia).
  destruct (track_init_ok df_price df_weight Hne) as [st0 Hinit].
  unfold make_track, track_state.
  rewrite (track_init_first_rows _ _ m st0 Hm Hinit), Hinit. simpl.
  eexists. split; [done|]. f_equal.
  rewrite !index_length, first_rows_length by lia.
  rewrite track_run_first_rows by lia.
  rewrite first_rows_zip, first_rows_index. f_equal. simpl.
  symmetry. apply track_run_take_stable. lia.
Qed.

Lemma make_track_no_look_ahead_witness :
  ∃ track, make_track price_ex weight_ex tc_ex = Ok track ∧
    make_track (first_rows 2 price_ex) weight_ex tc_ex =
      Ok (first_rows 2 track).
Proof.
  apply (make_track_no_look_ahead price_ex weight_ex tc_ex 2).
  - by_evaluation.
  - simpl. lia.
Defined.

(** ** [make_track]: what is read of the schedule *)

Lemma has_label_ext {A} (s s' : list (date * A)) (d : date) :
  find_label d s = find_label d s' → has_label d s = has_label d s'.
Proof.
  intros E.
  destruct (has_label d s) eqn:Hs, (has_label d s') eqn:Hs'; try done.
  - apply has_label_find in Hs as [a Ha].
    apply bool_decide_eq_false in Hs'. apply find_label_None in Hs'.
    congruence.
  - apply has_label_find in Hs' as [a Ha].
    apply bool_decide_eq_false in Hs. apply find_label_None in Hs.
    congruence.
Qed.

Lemma first_row_div_head (df_weight df_weight' df_price : DataFrame) :
  head df_weight = head df_weight' →
  first_row_div df_weight df_price = first_row_div df_weight' df_price.
Proof.
  destruct df_weight as [|[d w] ?], df_weight' as [|[d' w'] ?];
    simpl; intros E; try done.
  by injection E as -> ->.
Qed.

(** X23.  [make_track] reads the weight schedule through its first row and
    through the rows dated on a price date other than the last one: two
    schedules that agree there give the same track.  A weight row dated on
    the last price date, or on a date that is not a price date, is never
    used, unless it is the first row. *)
Theorem make_track_schedule_rows_read
    (df_price df_weight df_weight' : DataFrame) (tc : float) :
  head df_weight = head df_weight' →
  (∀ j, (j + 1 < length df_price)%nat →
     find_label (index df_price !!! j) df_weight =
     find_label (index df_price !!! j) df_weight') →
  make_track df_price df_weight tc = make_track df_price df_weight' tc.
Proof.
  intros Hhead Hrows. unfold make_track, track_state, track_init.
  rewrite (first_row_div_head _ _ _ Hhead).
  destruct (first_row_div df_weight' df_price) as [s|]; [|done]. simpl.
  destruct (decide _); [done|]. simpl. do 3 f_equal.
  unfold track_run. apply fold_left_ext_in.
  intros st i [Hi1 Hi]%elem_of_seq. rewrite index_length in Hi.
  assert (Hfind := Hrows (i - 1)%nat ltac:(lia)).
  unfold track_step, loc.
  by rewrite (has_label_ext _ _ _ Hfind), Hfind.
Qed.

Lemma make_track_schedule_rows_read_witness :
  make_track price_ex weight_ex tc_ex =
  make_track price_ex weight_ex_more tc_ex.
Proof.
  apply (make_track_schedule_rows_read price_ex weight_ex weight_ex_more).
  - reflexivity.
  - intros [|[|j]] Hj; [reflexivity|reflexivity|simpl in Hj; lia].
Defined.

(** ** Rolling estimates on a shorter sample *)

Lemma sorted_after (df : DataFrame) (m j : nat) :
  StronglySorted Z.lt (index df) → (j < m)%nat →
  Forall (λ r, index df !!! j < r.1) (drop m df).
Proof.
  intros Hs Hj. apply Forall_lookup. intros i r Hr.
  rewrite lookup_drop in Hr.
  assert (Hlt : (m + i < length df)%nat) by (by eapply lookup_lt_Some).
  replace r.1 with (index df !!! (m + i)%nat).
  - apply sorted_lookup_lt; [done|]. rewrite index_length. lia.
  - unfold index. by rewrite list_lookup_total_alt, list_lookup_fmap, Hr.
Qed.

(** On an increasing index, a slice that ends among the first [m] rows is
    made of rows among the first [m]. *)
Lemma loc_slice_first_rows (df : DataFrame) (m j : nat) (s : date) :
  StronglySorted Z.lt (index df) → (j < m)%nat →
  loc_slice (first_rows m df) s (index df !!! j) =
  loc_slice df s (index df !!! j).
Proof.
  intros Hs Hj. unfold loc_slice, first_rows.
  set (e := index df !!! j).
  rewrite <- (take_drop m df) at 2. rewrite filter_app.
  rewrite (filter_between_none (drop m df)) by by apply sorted_after.
  by rewrite app_nil_r.
Qed.

Lemma first_rows_sorted {A} (m : nat) (df : list (date * A)) :
  StronglySorted Z.lt (index df) → StronglySorted Z.lt (index (first_rows m df)).
Proof.
  intros Hs. rewrite first_rows_index.
  rewrite <- (take_drop m (index df)) in Hs.
  by apply StronglySorted_app_1_l in Hs.
Qed.

Lemma window_count_first_rows (df_y : DataFrame) (sample_length frequency : Z)
    (m : nat) :
  0 < frequency → (m ≤ length df_y)%nat →
  (window_count (first_rows m df_y) sample_length frequency
   ≤ window_count df_y sample_length frequency)%nat.
Proof.
  intros Hf Hm. unfold window_count. rewrite first_rows_length by done.
  pose proof (Z.div_le_mono (Z.of_nat m - sample_length)
                (Z.of_nat (length df_y) - sample_length) frequency Hf
                ltac:(lia)).
  lia.
Qed.

(** The windows of the shorter sample are windows of the whole sample. *)
Lemma window_first_rows (df_y : DataFrame) (sample_length frequency : Z)
    (m i : nat) :
  0 ≤ sample_length < Z.of_nat m → (m ≤ length df_y)%nat → 0 < frequency →
  (i < window_count (first_rows m df_y) sample_length frequency)%nat →
  window_start (first_rows m df_y) frequency i = window_start df_y frequency i ∧
  window_end (first_rows m df_y) sample_length frequency i =
    window_end df_y sample_length frequency i ∧
  (Z.to_nat (Z.of_nat i * frequency + sample_length) < m)%nat.
Proof.
  intros Hsl Hm Hf Hi.
  assert (Hsl' : 0 ≤ sample_length < Z.of_nat (length (first_rows m df_y)))
    by (by rewrite first_rows_length).
  destruct (window_in_range _ _ _ Hsl' Hf i Hi) as [H0 H1].
  rewrite first_rows_length in H1 by done.
  unfold window_start, window_end.
  rewrite first_rows_index, !lookup_total_take_lt by lia.
  split; [done|]. split; [done|lia].
Qed.

Section ShorterSample.
Variables (sqrt : float → float) (df_y df_x : DataFrame) (m j : nat).
Variables (boundaries : float * float) (weight_sum : float) (s : date).
Hypothesis Hsorted : StronglySorted Z.lt (index df_y).
Hypothesis Hidx : index df_x = index df_y.
Hypothesis Hj : (j < m)%nat.

Lemma loc_slice_regressors :
  loc_slice (first_rows m df_x) s (index df_y !!! j) =
  loc_slice df_x s (index df_y !!! j).
Proof.
  rewrite <- Hidx. apply loc_slice_first_rows; [by rewrite Hidx|done].
Qed.

Lemma ols_problem_first_rows :
  ols_problem (first_rows m df_y) (first_rows m df_x) boundaries weight_sum
    s (index df_y !!! j) =
  ols_problem df_y df_x boundaries weight_sum s (index df_y !!! j).
Proof.
  unfold ols_problem.
  rewrite first_rows_ncols by lia.
  by rewrite loc_slice_regressors, (loc_slice_first_rows df_y).
Qed.

Lemma ER_window_first_rows :
  ER_window sqrt (first_rows m df_y) (first_rows m df_x) s
    (index df_y !!! j) =
  ER_window sqrt df_y df_x s (index df_y !!! j).
Proof.
  unfold ER_window.
  rewrite !first_rows_ncols by lia.
  by rewrite loc_slice_regressors, (loc_slice_first_rows df_y).
Qed.

Lemma ols_ER_problem_first_rows :
  ols_ER_problem sqrt (first_rows m df_y) (first_rows m df_x) boundaries
    weight_sum s (index df_y !!! j) =
  ols_ER_problem sqrt df_y df_x boundaries weight_sum s (index df_y !!! j).
Proof.
  unfold ols_ER_problem.
  by rewrite first_rows_ncols, ER_window_first_rows by lia.
Qed.

(** The penalty of the lasso counts the rows of the whole regressor table:
    on a shorter table the same problem is met with another [lambda_]. *)
Lemma lasso_ER_problem_first_rows (lambda_ lambda_m : float) :
  (m ≤ length df_x)%nat →
  (lambda_m * of_Z (Z.of_nat m))%F
    = (lambda_ * of_Z (Z.of_nat (length df_x)))%F →
  lasso_ER_problem sqrt (first_rows m df_y) (first_rows m df_x) lambda_m
    boundaries weight_sum s (index df_y !!! j) =
  lasso_ER_problem sqrt df_y df_x lambda_ boundaries weight_sum s
    (index df_y !!! j).
Proof.
  intros Hm Hpen. unfold lasso_ER_problem.
  rewrite first_rows_ncols, first_rows_length, ER_window_first_rows by lia.
  by rewrite Hpen.
Qed.

End ShorterSample.

Lemma schedule_first_rows (stop stop_m : nat → date) (row row_m : nat → Row)
    (k k_m : nat) :
  (k_m ≤ k)%nat →
  (∀ i, (i < k_m)%nat → stop_m i = stop i ∧ row_m i = row i) →
  (λ i, (stop_m i, row_m i)) <$> seq 0 k_m =
  first_rows k_m ((λ i, (stop i, row i)) <$> seq 0 k).
Proof.
  intros Hk Hrows. unfold first_rows.
  rewrite <- fmap_take, take_seq, Nat.min_l by done.
  apply list_fmap_ext. intros n i [-> Hi]%lookup_seq.
  by destruct (Hrows (0 + n)%nat Hi) as [-> ->].
Qed.

(** X24.  The two least-squares estimators do not look ahead: run on the
    first [m] rows of a target and of a regressor table that share one
    increasing index, [ols_regression] and [ols_regression_ER] return the
    first rows of the schedule they return on the whole tables, one for each
    window that ends among the first [m] rows (for a solver that returns a
    vector of the dimension of its start point). *)
Theorem least_squares_no_look_ahead
    (minimize : Problem → OptimizeResult) (sqrt : float → float)
    (df_y df_x : DataFrame) (sample_length frequency : Z)
    (boundaries : float * float) (weight_sum : float) (m : nat) :
  keeps_dimension minimize →
  StronglySorted Z.lt (index df_y) → index df_x = index df_y →
  (0 < ncols df_y)%nat →
  0 ≤ sample_length < Z.of_nat m → (m ≤ length df_y)%nat → 0 < frequency →
  let k_m := window_count (first_rows m df_y) sample_length frequency in
  (∃ W, ols_regression minimize df_y df_x sample_length frequency
          boundaries weight_sum = Ok W ∧
        ols_regression minimize (first_rows m df_y) (first_rows m df_x)
          sample_length frequency boundaries weight_sum
        = Ok (first_rows k_m W)) ∧
  (∃ W, ols_regression_ER minimize sqrt df_y df_x sample_length frequency
          boundaries weight_sum = Ok W ∧
        ols_regression_ER minimize sqrt (first_rows m df_y)
          (first_rows m df_x) sample_length frequency boundaries weight_sum
        = Ok (first_rows k_m W)).
Proof.
  intros Hdim Hsorted Hidx Hcol Hsl Hm Hf k_m.
  assert (Hlen : length df_x = length df_y)
    by (by rewrite <- (index_length df_x), Hidx, index_length).
  assert (Hsorted_m := first_rows_sorted m df_y Hsorted).
  assert (Hcol_m : (0 < ncols (first_rows m df_y))%nat)
    by (rewrite first_rows_ncols; lia).
  assert (Hlen_m : length (first_rows m df_x) = length (first_rows m df_y))
    by (rewrite !first_rows_length; lia).
  assert (Hsl_m : 0 ≤ sample_length < Z.of_nat (length (first_rows m df_y)))
    by (rewrite first_rows_length; lia).
  assert (Hsl' : 0 ≤ sample_length < Z.of_nat (length df_y)) by lia.
  assert (Hk := window_count_first_rows df_y sample_length frequency m Hf Hm).
  split.
  - rewrite (ols_regression_rows minimize df_y df_x) by done.
    rewrite (ols_regression_rows minimize (first_rows m df_y)) by done.
    eexists. split; [done|]. f_equal.
    apply schedule_first_rows; [done|]. intros i Hi.
    destruct (window_first_rows df_y sample_length frequency m i Hsl Hm Hf Hi)
      as (Hstart & Hstop & Hpos).
    split; [done|]. unfold ols_row. rewrite Hstart, Hstop.
    unfold window_end. by rewrite ols_problem_first_rows.
  - rewrite (ols_regression_ER_rows minimize sqrt df_y df_x) by done.
    rewrite (ols_regression_ER_rows minimize sqrt (first_rows m df_y)) by done.
    eexists. split; [done|]. f_equal.
    apply schedule_first_rows; [done|]. intros i Hi.
    destruct (window_first_rows df_y sample_length frequency m i Hsl Hm Hf Hi)
      as (Hstart & Hstop & Hpos).
    split; [done|]. unfold ols_ER_row. rewrite Hstart, Hstop.
    unfold window_end.
    by rewrite ER_window_first_rows, ols_ER_problem_first_rows.
Qed.

Lemma least_squares_no_look_ahead_witness :
  let k_m := window_count (first_rows 3 target_ex) 1 1 in
  (∃ W, ols_regression probe_minimize target_ex regressors_ex 1 1
          unbounded NaN = Ok W ∧
        ols_regression probe_minimize (first_rows 3 target_ex)
          (first_rows 3 regressors_ex) 1 1 unbounded NaN
        = Ok (first_rows k_m W)) ∧
  (∃ W, ols_regression_ER probe_minimize sqrt_newton target_ex regressors_ex
          1 1 unbounded NaN = Ok W ∧
        ols_regression_ER probe_minimize sqrt_newton (first_rows 3 target_ex)
          (first_rows 3 regressors_ex) 1 1 unbounded NaN
        = Ok (first_rows k_m W)).
Proof.
  apply (least_squares_no_look_ahead probe_minimize sqrt_newton target_ex
           regressors_ex 1 1 unbounded NaN 3).
  - exact probe_keeps_dimension.
  - exact sample_sorted.
  - reflexivity.
  - simpl. lia.
  - lia.
  - simpl. lia.
  - lia.
Defined.

(** X25.  The penalty of the lasso is [lambda_] times the number of rows of
    the whole regressor table, not of the window.  Run on the first [m] rows
    of tables that share one increasing index, with a penalty [lambda_m]
    such that [lambda_m * m = lambda_ * n], [lasso_regression_ER] returns
    the first rows of the schedule it returns on the whole [n] rows with
    [lambda_] (for a solver that returns a vector of the dimension of its
    start point). *)
Theorem lasso_penalty_counts_all_rows
    (minimize : Problem → OptimizeResult) (sqrt : float → float)
    (df_y df_x : DataFrame) (sample_length frequency : Z)
    (lambda_ lambda_m : float)
    (boundaries : float * float) (weight_sum : float) (m : nat) :
  keeps_dimension minimize →
  StronglySorted Z.lt (index df_y) → index df_x = index df_y →
  (0 < ncols df_y)%nat →
  0 ≤ sample_length < Z.of_nat m → (m ≤ length df_y)%nat → 0 < frequency →
  (lambda_m * of_Z (Z.of_nat m))%F
    = (lambda_ * of_Z (Z.of_nat (length df_x)))%F →
  let k_m := window_count (first_rows m df_y) sample_length frequency in
  ∃ W, lasso_regression_ER minimize sqrt df_y df_x sample_length frequency
         lambda_ boundaries weight_sum = Ok W ∧
       lasso_regression_ER minimize sqrt (first_rows m df_y)
         (first_rows m df_x) sample_length frequency lambda_m boundaries
         weight_sum
       = Ok (first_rows k_m W).
Proof.
  intros Hdim Hsorted Hidx Hcol Hsl Hm Hf Hpen k_m.
  assert (Hlen : length df_x = length df_y)
    by (by rewrite <- (index_length df_x), Hidx, index_length).
  assert (Hsorted_m := first_rows_sorted m df_y Hsorted).
  assert (Hcol_m : (0 < ncols (first_rows m df_y))%nat)
    by (rewrite first_rows_ncols; lia).
  assert (Hlen_m : length (first_rows m df_x) = length (first_rows m df_y))
    by (rewrite !first_rows_length; lia).
  assert (Hsl_m : 0 ≤ sample_length < Z.of_nat (length (first_rows m df_y)))
    by (rewrite first_rows_length; lia).
  assert (Hsl' : 0 ≤ sample_length < Z.of_nat (length df_y)) by lia.
  assert (Hk := window_count_first_rows df_y sample_length frequency m Hf Hm).
  rewrite (lasso_regression_ER_rows minimize sqrt df_y df_x) by done.
  rewrite (lasso_regression_ER_rows minimize sqrt (first_rows m df_y)) by done.
  eexists. split; [done|]. f_equal.
  apply schedule_first_rows; [done|]. intros i Hi.
  destruct (window_first_rows df_y sample_length frequency m i Hsl Hm Hf Hi)
    as (Hstart & Hstop & Hpos).
  split; [done|]. unfold lasso_ER_row. rewrite Hstart, Hstop.
  unfold window_end.
  rewrite ER_window_first_rows by done.
  by rewrite (lasso_ER_problem_first_rows sqrt df_y df_x m _ boundaries
                weight_sum _ Hsorted Hidx Hpos lambda_ lambda_m) by (done || lia).
Qed.

Lemma lasso_penalty_counts_all_rows_witness :
  let k_m := window_count (first_rows 3 target_ex) 1 1 in
  ∃ W, lasso_regression_ER probe_minimize sqrt_newton target_ex regressors_ex
         1 1 (of_Z 3) unbounded NaN = Ok W ∧
       lasso_regression_ER probe_minimize sqrt_newton (first_rows 3 target_ex)
         (first_rows 3 regressors_ex) 1 1 (of_Z 4) unbounded NaN
       = Ok (first_rows k_m W).
Proof.
  apply (lasso_penalty_counts_all_rows probe_minimize sqrt_newton target_ex
           regressors_ex 1 1 (of_Z 3) (of_Z 4) unbounded NaN 3).
  - exact probe_keeps_dimension.
  - exact sample_sorted.
  - reflexivity.
  - simpl. lia.
  - lia.
  - simpl. lia.
  - lia.
  - reflexivity.
Defined.
